(** * Domnix: WHOIS domain availability checker (domnix.py)

    A shallow embedding of [domnix.py] and the properties of its resolution
    pipeline: text normalisation, the WHOIS transport and its lossy decoding,
    the zone-to-server cache, the response classifier, the per-domain checker
    with its retry loop, and the batch runner's final ordering.

    Conventions of the embedding.
    - A Python [str] is a [string]: the UTF-8 bytes of the text.  Case
      mapping and the whitespace class are those of the ASCII range
      ([str.lower], [re.IGNORECASE], [str.strip] and [\s] also act on
      non-ASCII code points, which a byte string does not expose).
    - A Python [bytes] is a [list byte].
    - An exception is represented by its message [str(e)].
    - The network is an oracle [net]: the reply to the [n]-th transport call
      of a run, given the host and the query text. *)

From Stdlib Require Import ZArith Ascii.
From Stdlib.Strings Require Import Byte.
From stdpp Require Import gmap strings list sorting.

Local Open Scope Z_scope.

(** ** Python string primitives *)

Module PyStr.

Definition code (c : ascii) : N := N_of_ascii c.

(** [str.isspace] on the ASCII range: TAB, LF, VT, FF, CR, FS, GS, RS, US
    and SPACE.  The same class is [\s] of [re] on [str] patterns. *)
Definition is_space (c : ascii) : bool :=
  ((9 <=? code c) && (code c <=? 13) || (28 <=? code c) && (code c <=? 32))%N.

Definition lower_char (c : ascii) : ascii :=
  if ((65 <=? code c) && (code c <=? 90))%N then ascii_of_N (code c + 32) else c.

(** [s.lower()] *)
Fixpoint lower (s : string) : string :=
  match s with
  | EmptyString => EmptyString
  | String c s' => String (lower_char c) (lower s')
  end.

Definition is_empty (s : string) : bool :=
  match s with EmptyString => true | _ => false end.

(** [s.startswith(p)] *)
Fixpoint startswith (p s : string) : bool :=
  match p, s with
  | EmptyString, _ => true
  | String a p', String b s' => if decide (a = b) then startswith p' s' else false
  | String _ _, EmptyString => false
  end.

(** [sub in s] *)
Fixpoint contains (sub s : string) : bool :=
  startswith sub s ||
  match s with
  | EmptyString => false
  | String _ s' => contains sub s'
  end.

(** [s.lstrip(chars)] and [s.rstrip(chars)], the set of characters given
    as a predicate. *)
Fixpoint lstrip (p : ascii -> bool) (s : string) : string :=
  match s with
  | EmptyString => EmptyString
  | String c s' => if p c then lstrip p s' else s
  end.

Fixpoint rstrip (p : ascii -> bool) (s : string) : string :=
  match s with
  | EmptyString => EmptyString
  | String c s' =>
      let r := rstrip p s' in
      if is_empty r && p c then EmptyString else String c r
  end.

Definition strip_with (p : ascii -> bool) (s : string) : string :=
  rstrip p (lstrip p s).

(** [s.strip()] *)
Definition strip : string -> string := strip_with is_space.

Definition is_dot (c : ascii) : bool := bool_decide (c = "."%char).

(** [s.strip(".")] *)
Definition strip_dots : string -> string := strip_with is_dot.

(** [s.split(".")]: the labels between the dots, always at least one. *)
Fixpoint split_dot (s : string) : list string :=
  match s with
  | EmptyString => [EmptyString]
  | String c s' =>
      if is_dot c then EmptyString :: split_dot s'
      else match split_dot s' with
           | [] => [String c EmptyString]
           | l :: ls => String c l :: ls
           end
  end.

(** Case-insensitive literal at the head of [s] ([re.IGNORECASE] on an
    ASCII literal): the rest of [s] after the literal, if it is there. *)
Fixpoint ci_literal (p s : string) : option string :=
  match p, s with
  | EmptyString, _ => Some s
  | String a p', String b s' =>
      if decide (lower_char a = lower_char b) then ci_literal p' s' else None
  | String _ _, EmptyString => None
  end.

(** The longest run of non-space characters at the head of [s]: [\S*]. *)
Fixpoint nonspace_run (s : string) : string :=
  match s with
  | EmptyString => EmptyString
  | String c s' => if is_space c then EmptyString else String c (nonspace_run s')
  end.

(** [re.search]: some position of [s] where [m] matches. *)
Fixpoint search (m : string -> bool) (s : string) : bool :=
  m s ||
  match s with
  | EmptyString => false
  | String _ s' => search m s'
  end.

(** [re.search] of [^...] under [re.MULTILINE]: [m] matches at the start
    of the text or right after a line feed. *)
Fixpoint search_bol (m : string -> bool) (bol : bool) (s : string) : bool :=
  (bol && m s) ||
  match s with
  | EmptyString => false
  | String c s' => search_bol m (bool_decide (c = "010"%char)) s'
  end.

(** [re.search] returning the first capture: the leftmost position where
    [m] matches. *)
Fixpoint search_group (m : string -> option string) (s : string) : option string :=
  match m s with
  | Some g => Some g
  | None =>
      match s with
      | EmptyString => None
      | String _ s' => search_group m s'
      end
  end.

End PyStr.

Import PyStr.

(** ** The response classifier *)

(** Phrases that indicate the domain is available, with the non-English
    variants appended. *)
Definition AVAILABLE_MARKERS : list string :=
  [ "no match"; "not found"; "no entries found"; "no data found";
    "status: available"; "status: free"; "domain not found"; "no object found";
    "no such domain"; "not registered"; "object does not exist" ]
  ++ [ "не найден"; "свободен"; "нет данных" ].

(** [^domain name:\s*\S+]: after the literal, the greedy [\s*] stops at the
    first non-space character, and [\S+] needs one to be there. *)
Definition m_domain_name (s : string) : bool :=
  match ci_literal "domain name:" s with
  | Some rest => negb (is_empty (lstrip is_space rest))
  | None => false
  end.

(** [^status:\s*(ok|client|server|active|registered)] *)
Definition m_status (s : string) : bool :=
  match ci_literal "status:" s with
  | Some rest =>
      existsb (fun w => bool_decide (is_Some (ci_literal w (lstrip is_space rest))))
              ["ok"; "client"; "server"; "active"; "registered"]
  | None => false
  end.

(** [registrant|registry expiry date|created:] *)
Definition m_registration (s : string) : bool :=
  existsb (fun w => bool_decide (is_Some (ci_literal w s)))
          ["registrant"; "registry expiry date"; "created:"].

(** Basic heuristic: is the domain registered, available, or unknown. *)
Definition interpret_whois (raw : string) : string :=
  let text := lower raw in
  if existsb (fun marker => contains marker text) AVAILABLE_MARKERS then "free"
  else if search_bol m_domain_name true raw then "registered"
  else if search_bol m_status true raw then "registered"
  else if search m_registration raw then "registered"
  else "unknown".

(** ** The WHOIS transport *)

Module Utf8.

Definition between (lo hi : N) (b : byte) : bool :=
  ((lo <=? Byte.to_N b) && (Byte.to_N b <=? hi))%N.

(** A continuation byte, [10xxxxxx]. *)
Definition cont (b : byte) : bool := between 128 191 b.

(** The second byte a three-byte lead admits: no overlong form after
    [E0], no surrogate after [ED]. *)
Definition second_of_3 (b1 b2 : byte) : bool :=
  if between 224 224 b1 then between 160 191 b2
  else if between 237 237 b1 then between 128 159 b2
  else cont b2.

(** The second byte a four-byte lead admits: no overlong form after
    [F0], nothing above U+10FFFF after [F4]. *)
Definition second_of_4 (b1 b2 : byte) : bool :=
  if between 240 240 b1 then between 144 191 b2
  else if between 244 244 b1 then between 128 143 b2
  else cont b2.

(** [bs.decode("utf-8", errors="ignore")]: a well-formed sequence is kept,
    every byte that is not part of one is dropped.  The codec skips the
    longest well-formed prefix of a broken sequence and resumes after it;
    the bytes of that prefix after the lead are continuation bytes, which
    are dropped one by one when decoding resumes right after the lead, so
    the result is the same. *)
Fixpoint decode_ignore (bs : list byte) : list byte :=
  match bs with
  | [] => []
  | b1 :: t1 =>
      if between 0 127 b1 then b1 :: decode_ignore t1
      else if between 194 223 b1 then
        match t1 with
        | b2 :: t2 =>
            if cont b2 then b1 :: b2 :: decode_ignore t2 else decode_ignore t1
        | _ => decode_ignore t1
        end
      else if between 224 239 b1 then
        match t1 with
        | b2 :: b3 :: t3 =>
            if second_of_3 b1 b2 && cont b3
            then b1 :: b2 :: b3 :: decode_ignore t3 else decode_ignore t1
        | _ => decode_ignore t1
        end
      else if between 240 244 b1 then
        match t1 with
        | b2 :: b3 :: b4 :: t4 =>
            if second_of_4 b1 b2 && cont b3 && cont b4
            then b1 :: b2 :: b3 :: b4 :: decode_ignore t4 else decode_ignore t1
        | _ => decode_ignore t1
        end
      else decode_ignore t1
  end.

(** U+FFFD REPLACEMENT CHARACTER, which [errors="replace"] would put in
    the place of a broken sequence. *)
Definition REPLACEMENT : list byte := [xef; xbf; xbd].

Definition is_ascii_byte (b : byte) : bool := between 0 127 b.

End Utf8.

(** What the peer does on one connection: the call fails (connect, send,
    receive or timeout error, with its message), or the successive results
    of [recv] until the peer closes. *)
Inductive reply :=
  | Fail (msg : string)
  | Recv (chunks : list (list byte)).

(** One transport call: host, query text, and what came back. *)
Record call := mkCall { host : string; sent : string; got : reply }.

(** The process state: the module-level [WHOIS_SERVER_CACHE] and the
    transport calls made so far, oldest first. *)
Record World := mkWorld {
  cache : gmap string string;
  calls : list call
}.

(** Computations that read and write the world and may raise. *)
Inductive outcome (A : Type) :=
  | Ret (a : A)
  | Raise (e : string).
Arguments Ret {A} a.
Arguments Raise {A} e.

Definition M (A : Type) : Type := World -> outcome A * World.

Definition ret {A} (a : A) : M A := fun w => (Ret a, w).

Definition bind {A B} (m : M A) (k : A -> M B) : M B := fun w =>
  match m w with
  | (Ret a, w') => k a w'
  | (Raise e, w') => (Raise e, w')
  end.

(** [try: m / except Exception as e: ...]: the exception as a value. *)
Definition attempt {A} (m : M A) : M (string + A) := fun w =>
  match m w with
  | (Ret a, w') => (Ret (inr a), w')
  | (Raise e, w') => (Ret (inl e), w')
  end.

Definition cache_get (k : string) : M (option string) := fun w =>
  (Ret (cache w !! k), w).

Definition cache_set (k v : string) : M unit := fun w =>
  (Ret tt, mkWorld (<[k := v]> (cache w)) (calls w)).

Notation "'let*' x ':=' m 'in' k" := (bind m (fun x => k))
  (at level 10, x name, m at level 100, k at level 200, only parsing).

(** The [recv] loop: chunks are collected until [recv] returns [b""]. *)
Fixpoint recv_loop (chunks : list (list byte)) : list (list byte) :=
  match chunks with
  | [] => []
  | data :: rest => match data with [] => [] | _ => data :: recv_loop rest end
  end.

(** [b"".join(chunks).decode("utf-8", errors="ignore")] *)
Definition decode_response (chunks : list (list byte)) : string :=
  String.string_of_list_byte (Utf8.decode_ignore (concat chunks)).

Definition IANA : string := "whois.iana.org".

Definition record : Type := string * string * string.

Inductive loop_exit :=
  | Returned (r : record)
  | Exhausted (last_err : option string).

(** [whois:\s*(\S+)], the capture: the greedy [\s*] runs up to the first
    non-space character, where the greedy [\S+] takes the whole run. *)
Definition m_whois (s : string) : option string :=
  match ci_literal "whois:" s with
  | Some rest =>
      let g := nonspace_run (lstrip is_space rest) in
      if is_empty g then None else Some g
  | None => None
  end.

(** The text a reply decodes to, when the call does not fail. *)
Definition text_of (r : reply) : option string :=
  match r with
  | Recv chunks => Some (decode_response (recv_loop chunks))
  | Fail _ => None
  end.

Definition failed (c : call) : Prop := exists msg, got c = Fail msg.

(** The value of [last_err] after the failed calls among [tr]. *)
Definition last_error (e : option string) (tr : list call) : option string :=
  foldl (fun acc c => match got c with Fail msg => Some msg | Recv _ => acc end) e tr.

(** The query texts of [n] attempts, in the order they are tried. *)
Definition variants (d : string) (n : nat) : list string :=
  concat (replicate n [d; "domain " +:+ d]).

(** The referral a root reply carries, if any. *)
Definition referral (r : reply) : option string :=
  match text_of r with
  | Some resp => search_group m_whois resp
  | None => None
  end.

(** The root-directory queries for zone [z] in a log, and those among them
    that were answered with a referral. *)
Definition root_queries (z : string) (log : list call) : list call :=
  filter (fun c => host c = IANA /\ sent c = z) log.

Definition root_referrals (z : string) (log : list call) : list call :=
  filter (fun c => is_Some (referral (got c))) (root_queries z log).

(** The top-level zone of a name: its last label, when there are at least
    two. *)
Definition zone (domain : string) : option string :=
  let parts := split_dot domain in
  if (length parts <? 2)%nat then None else last parts.

(** [w'] is a later state of the process than [w]: cache entries stay,
    calls are only added. *)
Definition later (w w' : World) : Prop :=
  cache w ⊆ cache w' /\ calls w `prefix_of` calls w'.

(** The cache accounts for the log: a zone (a label, without a dot) has at
    most one referral in the log, and none while it is not in the cache. *)
Definition cache_accounts (w : World) : Prop :=
  forall z, contains "." z = false ->
    (length (root_referrals z (calls w)) <= 1)%nat
    /\ (cache w !! z = None -> root_referrals z (calls w) = []).

(** Normalisation in the other order: trim and lowercase first, then add
    the default TLD to a name left without a dot. *)
Definition normalize_trim_first (default_tld domain : string) : string :=
  let t := lower (strip_dots (strip domain)) in
  if negb (contains "." t) then t +:+ "." +:+ default_tld else t.

Section Pipeline.

(** The network. *)
Variable net : nat -> string -> string -> reply.

(** [name.encode("idna").decode("ascii")] on a name with a non-ASCII
    character (nameprep and punycode, not modelled); [None] when it
    raises. *)
Variable idna_unicode : string -> option string.

(** The [timeout] argument of the source is only handed to the socket;
    whether a call times out is decided by [net]. *)
Definition whois_query (server query : string) : M string := fun w =>
  let r := net (length (calls w)) server query in
  let w' := mkWorld (cache w) (calls w ++ [mkCall server query r]) in
  match r with
  | Fail msg => (Raise msg, w')
  | Recv chunks => (Ret (decode_response (recv_loop chunks)), w')
  end.

Definition find_whois_server (domain : string) : M (option string) :=
  let parts := split_dot domain in
  if (length parts <? 2)%nat then ret None
  else
    let tld := default "" (last parts) in
    let* hit := cache_get tld in
    match hit with
    | Some server => ret (Some server)
    | None =>
        let* r := attempt (whois_query IANA tld) in
        match r with
        | inl _ => ret None
        | inr resp =>
            match search_group m_whois resp with
            | Some g =>
                let server := strip g in
                let* _ := cache_set tld server in
                ret (Some server)
            | None => ret None
            end
        end
    end.

Fixpoint all_chars (p : ascii -> bool) (s : string) : bool :=
  match s with
  | EmptyString => true
  | String c s' => p c && all_chars p s'
  end.

Definition is_ascii (s : string) : bool := all_chars (fun c => (code c <? 128)%N) s.

(** The codec on a pure-ASCII name: the name itself, unless a label is
    empty or longer than 63 characters (the last one may be empty). *)
Definition idna_ascii (s : string) : option string :=
  let labels := split_dot s in
  let inner := removelast labels in
  if forallb (fun l => (0 <? String.length l)%nat && (String.length l <? 64)%nat) inner
     && (String.length (default "" (last labels)) <? 64)%nat
  then Some s else None.

Definition idna_encode (s : string) : option string :=
  if is_ascii s then idna_ascii s else idna_unicode s.

Definition to_ascii (domain : string) : string :=
  let domain := lower (strip_dots (strip domain)) in
  if is_empty domain then domain
  else match idna_encode domain with
       | Some a => a
       | None => domain
       end.

(** The first statement of [check_one]: the default TLD is added to a
    name without a dot. *)
Definition with_default_tld (default_tld domain : string) : string :=
  if negb (contains "." domain) then domain +:+ "." +:+ default_tld else domain.

(** The inner [for q in queries] loop; [time.sleep(0.2)] after a failed
    call has no effect on the state. *)
Fixpoint for_queries (domain server : string) (queries : list string)
    (last_err : option string) : M loop_exit :=
  match queries with
  | [] => ret (Exhausted last_err)
  | q :: rest =>
      let* r := attempt (whois_query server q) in
      match r with
      | inr raw =>
          let status := interpret_whois raw in
          if negb (bool_decide (status = "unknown"))
          then ret (Returned (domain, status, "whois: " +:+ server))
          else ret (Returned (domain, "unknown", "whois: " +:+ server))
      | inl e => for_queries domain server rest (Some e)
      end
  end.

(** The outer [for attempt in range(retry + 1)] loop. *)
Fixpoint for_attempts (n : nat) (domain server : string) (queries : list string)
    (last_err : option string) : M loop_exit :=
  match n with
  | O => ret (Exhausted last_err)
  | S n' =>
      let* r := for_queries domain server queries last_err in
      match r with
      | Returned x => ret (Returned x)
      | Exhausted e => for_attempts n' domain server queries e
      end
  end.

Definition FALLBACK_NOTE : string := "Ошибка WHOIS-запроса".

(** [last_err or FALLBACK_NOTE] *)
Definition error_note (last_err : option string) : string :=
  match last_err with
  | Some e => if is_empty e then FALLBACK_NOTE else e
  | None => FALLBACK_NOTE
  end.

Definition check_one (domain : string) (retry : Z) (default_tld : string) : M record :=
  let domain := with_default_tld default_tld domain in
  let d := to_ascii domain in
  if is_empty d || negb (contains "." d)
  then ret (domain, "invalid", "Invalid domain name")
  else
    let* server := find_whois_server d in
    match server with
    | None => ret (domain, "unknown", "WHOIS server not found at IANA")
    | Some server =>
        if is_empty server
        then ret (domain, "unknown", "WHOIS server not found at IANA")
        else
          let queries := [d; "domain " +:+ d] in
          let* r := for_attempts (Z.to_nat (retry + 1)) domain server queries None in
          match r with
          | Returned x => ret x
          | Exhausted last_err => ret (domain, "error", error_note last_err)
          end
    end.

(** *** The batch runner *)

(** The futures run [check_one] with the default [retry = 1]; they are
    modelled as running one at a time, in the order [completed] in which
    [as_completed] yields them. *)
Fixpoint collect (completed : list string) (default_tld : string) : M (list record) :=
  match completed with
  | [] => ret []
  | d :: rest =>
      let* r := check_one d 1 default_tld in
      let* rs := collect rest default_tld in
      ret (r :: rs)
  end.

(** [{d: i for i, d in enumerate(domains)}]: a later index overwrites an
    earlier one. *)
Definition order_of (domains : list string) : gmap string nat :=
  foldl (fun m '(i, d) => <[d := i]> m) ∅ (imap pair domains).

Definition sort_key (order : gmap string nat) (r : record) : Z :=
  default (10 ^ 9) (Z.of_nat <$> order !! r.1.1).

(** [list.sort(key=...)] is stable: records with equal keys keep their
    relative order. *)
Fixpoint insert_by (key : record -> Z) (r : record) (l : list record) : list record :=
  match l with
  | [] => [r]
  | x :: l' => if key r <=? key x then r :: l else x :: insert_by key r l'
  end.

Definition sort_by (key : record -> Z) (l : list record) : list record :=
  foldr (insert_by key) [] l.

Definition main_results (completed domains : list string) (default_tld : string)
    : M (list record) :=
  let* results := collect completed default_tld in
  ret (sort_by (sort_key (order_of domains)) results).

(** The log entries of sending [queries] to [server] one after the other,
    the first of them being transport call number [n]. *)
Fixpoint trace (n : nat) (server : string) (queries : list string) : list call :=
  match queries with
  | [] => []
  | q :: rest => mkCall server q (net n server q) :: trace (S n) server rest
  end.

End Pipeline.

(** ** Sample networks and states *)

(** A reply carrying [s] in one chunk. *)
Definition text_reply (s : string) : reply := Recv [String.list_byte_of_string s].

(** No host can be reached. *)
Definition net_down : nat -> string -> string -> reply :=
  fun _ _ _ => Fail "timed out".

(** Every call fails with an exception whose message is empty, as
    [str(OSError())] is. *)
Definition net_silent : nat -> string -> string -> reply :=
  fun _ _ _ => Fail "".

(** The root answers, but without a [whois:] field. *)
Definition net_no_referral : nat -> string -> string -> reply :=
  fun _ _ _ => text_reply "% This query returned 0 objects.".

(** The root refers to a registry; the registry resets the first
    connection and then answers with text no heuristic recognises. *)
Definition net_flaky : nat -> string -> string -> reply :=
  fun n server _ =>
    if bool_decide (server = IANA) then text_reply "refer: x
whois:        whois.nic.example
"
    else match n with
         | 1%nat => Fail "[Errno 104] Connection reset by peer"
         | _ => text_reply "Rate limit exceeded, try later."
         end.

(** The root refers to a registry that can never be reached. *)
Definition net_unreachable : nat -> string -> string -> reply :=
  fun n server q =>
    if bool_decide (server = IANA) then text_reply "whois: whois.nic.example"
    else Fail ("timed out: " +:+ q).

(** The root refers to a registry that accepts the connection and closes
    it without sending anything. *)
Definition net_mute : nat -> string -> string -> reply :=
  fun n server _ =>
    if bool_decide (server = IANA) then text_reply "whois: whois.nic.example"
    else Recv [].

(** A registry whose answer holds a byte that is no UTF-8, a character
    split over two chunks, and that is closed after the third chunk. *)
Definition net_garbled : nat -> string -> string -> reply :=
  fun _ _ _ => Recv [[x41; xff]; [xd0]; [xbd; x42]; []; [x43]].

(** The codec refusing every non-ASCII name. *)
Definition no_idna : string -> option string := fun _ => None.

(** A fresh process: empty cache, no call made. *)
Definition w_fresh : World := mkWorld ∅ [].

(** A process that already knows the registry of [com]. *)
Definition w_com : World := mkWorld {[ "com" := "whois.verisign-grs.com" ]} [].

(** ** The input file and the report *)

(** [s.split(sep)] for a one-character separator: the pieces between the
    separators, always at least one. *)
Fixpoint split_char (sep : ascii) (s : string) : list string :=
  match s with
  | EmptyString => [EmptyString]
  | String c s' =>
      if decide (c = sep) then EmptyString :: split_char sep s'
      else match split_char sep s' with
           | [] => [String c EmptyString]
           | l :: ls => String c l :: ls
           end
  end.

(** The length in bytes of the line boundary at the head of [s], [0] when
    there is none.  The boundaries of [str.splitlines] are LF, CR, CR LF,
    VT, FF, FS, GS, RS, U+0085 (bytes C2 85), U+2028 and U+2029 (bytes
    E2 80 A8 and E2 80 A9). *)
Definition break_len (s : string) : nat :=
  match s with
  | EmptyString => 0
  | String c rest =>
      if decide (c = "013"%char) then
        match rest with
        | String c2 _ => if decide (c2 = "010"%char) then 2 else 1
        | EmptyString => 1
        end
      else if bool_decide (c ∈ ["010"; "011"; "012"; "028"; "029"; "030"]%char) then 1
      else if decide (c = "194"%char) then
        match rest with
        | String c2 _ => if decide (c2 = "133"%char) then 2 else 0
        | EmptyString => 0
        end
      else if decide (c = "226"%char) then
        match rest with
        | String c2 (String c3 _) =>
            if decide (c2 = "128"%char)
            then if bool_decide (c3 ∈ ["168"; "169"]%char) then 3 else 0
            else 0
        | _ => 0
        end
      else 0
  end%nat.

(** [s.splitlines()]: the lines between the boundaries; no empty line is
    reported after a final boundary.  [skip] counts the bytes of a boundary
    still to pass over. *)
Fixpoint splitlines_from (skip : nat) (s : string) : list string :=
  match s with
  | EmptyString => []
  | String c s' =>
      match skip with
      | S k => splitlines_from k s'
      | O =>
          match break_len s with
          | S k => EmptyString :: splitlines_from k s'
          | O =>
              match splitlines_from 0 s' with
              | [] => [String c EmptyString]
              | l :: ls => String c l :: ls
              end
          end
      end
  end.

Definition splitlines (s : string) : list string := splitlines_from 0 s.

(** [load_domains], from the text [f.read()] returns: split on commas when
    there is one, on lines otherwise; every piece is stripped; empty pieces
    and pieces that start with [#] are left out. *)
Definition load_domains (content : string) : list string :=
  let domains :=
    if contains "," content
    then map strip (split_char ","%char content)
    else map strip (splitlines content) in
  List.filter (fun d => negb (is_empty d) && negb (startswith "#" d)) domains.

(** [len(s)]: the number of code points, which in well-formed UTF-8 is the
    number of bytes that are no continuation bytes. *)
Fixpoint py_len (s : string) : nat :=
  match s with
  | EmptyString => 0
  | String c s' =>
      ((if ((128 <=? code c) && (code c <=? 191))%N then 0 else 1) + py_len s')%nat
  end.

(** [n] spaces. *)
Fixpoint spaces (n : nat) : string :=
  match n with
  | O => EmptyString
  | S n' => String " "%char (spaces n')
  end.

(** [f"{s:width}"] for a string: padded with spaces on the right up to
    [width] characters, never cut. *)
Definition ljust (width : nat) (s : string) : string :=
  s +:+ spaces (width - py_len s).

(** [f"{'DOMAIN':40}  {'STATUS':12}  NOTE"] *)
Definition HEADER_LINE : string :=
  ljust 40 "DOMAIN" +:+ "  " +:+ ljust 12 "STATUS" +:+ "  " +:+ "NOTE".

(** [f"{d:40}  {status_display}  {note}"] with [status_display = f"{s:12}"] *)
Definition report_line (r : record) : string :=
  ljust 40 r.1.1 +:+ "  " +:+ ljust 12 r.1.2 +:+ "  " +:+ r.2.

(** How [main] ends: [sys.exit(1)] after a message on the error stream, or
    normally, with the strings printed and, when [--out] is given, the rows
    handed to the CSV writer under the header [domain,status,note]. *)
Inductive main_exit :=
  | Exit1 (stderr : string)
  | Done (stdout : list string) (csv_rows : option (list record)).

(** [main], from the content of the input file, the [--out] and [--tld]
    options and the order [completed] in which the checks finish.  The
    encoding of the rows by [csv.writer] is not modelled. *)
Definition main (net : nat -> string -> string -> reply)
    (idna_unicode : string -> option string)
    (content : string) (out tld : option string) (completed : list string)
    : M main_exit :=
  let domains := load_domains content in
  if bool_decide (domains = []) then
    ret (Exit1 "File is empty or contains no valid domains.")
  else
    let default_tld :=
      match tld with
      | Some t => if is_empty t then "com" else t
      | None => "com"
      end in
    let* results := main_results net idna_unicode completed domains default_tld in
    let table := HEADER_LINE :: map report_line results in
    match out with
    | Some path =>
        if is_empty path then ret (Done table None)
        else ret (Done (table ++ [String "010"%char "Results saved to: " +:+ path])
                       (Some results))
    | None => ret (Done table None)
    end.




(** * Properties *)

(** ** Strings *)

Lemma startswith_lower p : forall s,
  startswith p s = true -> startswith (lower p) (lower s) = true.
Proof.
  induction p as [|a p IH]; intros [|b s] H; simpl in *; try done.
  destruct (decide (a = b)) as [->|]; [|done].
  rewrite decide_True by done. by apply IH.
Qed.

Lemma contains_lower p : forall s,
  contains p s = true -> contains (lower p) (lower s) = true.
Proof.
  induction s as [|b s IH]; intros H.
  - destruct p; [done|]. simpl in H. done.
  - change (startswith p (String b s) || contains p s = true) in H.
    change (startswith (lower p) (lower (String b s)) || contains (lower p) (lower s) = true).
    apply orb_true_iff in H as [H|H].
    + by rewrite (startswith_lower _ _ H).
    + rewrite (IH H). apply orb_true_r.
Qed.

Lemma markers_lowercase marker :
  In marker AVAILABLE_MARKERS -> lower marker = marker.
Proof.
  intros H. repeat (destruct H as [<-|H]; [reflexivity|]). destruct H.
Qed.

(** ** The classifier *)

Lemma interpret_whois_range raw :
  interpret_whois raw = "free" \/ interpret_whois raw = "registered"
  \/ interpret_whois raw = "unknown".
Proof.
  unfold interpret_whois.
  repeat match goal with |- context [if ?b then _ else _] => destruct b end; auto.
Qed.

Example classify_no_match :
  interpret_whois "No match for domain EXAMPLE.COM." = "free".
Proof. reflexivity. Qed.

Example classify_domain_name :
  interpret_whois "   Registry data
Domain Name: EXAMPLE.COM
Registrar: Example Registrar, Inc." = "registered".
Proof. reflexivity. Qed.

Example classify_unrecognised :
  interpret_whois "Rate limit exceeded, try later." = "unknown".
Proof. reflexivity. Qed.

(** C8.  A response holding an availability marker (as it stands, or once
    lowercased) is classified [free], whatever else it holds: the marker
    test comes before every registration heuristic. *)
Theorem availability_marker_wins (raw marker : string) :
  In marker AVAILABLE_MARKERS ->
  contains marker raw = true \/ contains marker (lower raw) = true ->
  interpret_whois raw = "free".
Proof.
  intros Hin Hc.
  assert (Hl : contains marker (lower raw) = true).
  { destruct Hc as [Hc|Hc]; [|done].
    rewrite <- (markers_lowercase marker Hin). by apply contains_lower. }
  unfold interpret_whois.
  replace (existsb _ AVAILABLE_MARKERS) with true; [done|].
  symmetry. apply existsb_exists. eauto.
Qed.

Lemma availability_marker_wins_witness :
  interpret_whois
    "No match for domain EXAMPLE.COM.
Domain Name: EXAMPLE.COM
Status: ok
The registrant of a registered name is shown, created: n/a" = "free".
Proof.
  apply (availability_marker_wins _ "no match").
  - vm_compute. auto.
  - right. vm_compute. reflexivity.
Defined.

(** ** The transport and the retry loop *)

Section Loops.

Context (net : nat -> string -> string -> reply).

(** A failing call raises; nothing in the transport catches it. *)
Example whois_query_raises :
  whois_query net_down "whois.nic.example" "example.com" w_fresh
  = (Raise "timed out",
     mkWorld ∅ [mkCall "whois.nic.example" "example.com" (Fail "timed out")]).
Proof. reflexivity. Qed.

Lemma whois_query_run server q w :
  whois_query net server q w =
    (match net (length (calls w)) server q with
     | Fail msg => Raise msg
     | Recv chunks => Ret (decode_response (recv_loop chunks))
     end,
     mkWorld (cache w) (calls w ++ trace net (length (calls w)) server [q])).
Proof. unfold whois_query. simpl. by destruct (net _ _ _). Qed.

Lemma attempt_whois_query server q w :
  attempt (whois_query net server q) w =
    (Ret (match net (length (calls w)) server q with
          | Fail msg => inl msg
          | Recv chunks => inr (decode_response (recv_loop chunks))
          end),
     mkWorld (cache w) (calls w ++ trace net (length (calls w)) server [q])).
Proof. unfold attempt. rewrite whois_query_run. by destruct (net _ _ _). Qed.

(** Both [return] statements of the [try] block build the same record. *)
Lemma classify_return domain server raw :
  (if negb (bool_decide (interpret_whois raw = "unknown"))
   then @ret loop_exit (Returned (domain, interpret_whois raw, "whois: " +:+ server))
   else ret (Returned (domain, "unknown", "whois: " +:+ server)))
  = ret (Returned (domain, interpret_whois raw, "whois: " +:+ server)).
Proof. case_bool_decide as H; simpl; [by rewrite H|done]. Qed.

(** Every run of the inner loop: it sends a prefix of the queries, all but
    the last of which failed; it leaves with a record exactly when the last
    one was answered, and falls through when all of them failed. *)
Lemma for_queries_run domain server qs : forall e w,
  exists m ex,
    for_queries net domain server qs e w
      = (Ret ex, mkWorld (cache w)
                   (calls w ++ trace net (length (calls w)) server (take m qs)))
    /\ (m <= length qs)%nat
    /\ Forall failed (trace net (length (calls w)) server (take (pred m) qs))
    /\ match ex with
       | Exhausted e' =>
           m = length qs
           /\ Forall failed (trace net (length (calls w)) server qs)
           /\ e' = last_error e (trace net (length (calls w)) server qs)
       | Returned r =>
           exists q raw,
             (0 < m)%nat /\ qs !! pred m = Some q
             /\ text_of (net (length (calls w) + pred m) server q) = Some raw
             /\ r = (domain, interpret_whois raw, "whois: " +:+ server)
       end.
Proof.
  induction qs as [|q qs IH]; intros e w.
  - exists O, (Exhausted e). simpl. rewrite app_nil_r. by destruct w.
  - cbn [for_queries]. unfold bind at 1. rewrite attempt_whois_query.
    destruct (net (length (calls w)) server q) as [msg|chunks] eqn:Hq.
    + set (w1 := mkWorld _ _).
      destruct (IH (Some msg) w1) as (m & ex & Hrun & Hm & Hpre & Hex).
      assert (Hlen : length (calls w1) = S (length (calls w))).
      { subst w1; simpl. rewrite length_app. simpl. lia. }
      rewrite Hlen in *.
      assert (Hhd : failed (mkCall server q (net (length (calls w)) server q))).
      { exists msg. simpl. done. }
      exists (S m), ex. split; [|split; [|split]].
      * rewrite Hrun. subst w1; simpl. by rewrite <- app_assoc.
      * simpl. lia.
      * destruct m as [|m]; simpl in *; [constructor|]. by constructor.
      * destruct ex as [r|e'].
        -- destruct Hex as (q' & raw & Hpos & Hq' & Htxt & ->).
           exists q', raw. split; [lia|]. destruct m as [|m]; [lia|].
           simpl in *. split; [done|]. split; [|done].
           rewrite <- Htxt. do 2 f_equal. lia.
        -- destruct Hex as (-> & Hall & ->). simpl. split; [done|].
           split; [by constructor|]. by rewrite Hq.
    + exists 1%nat, (Returned (domain, interpret_whois (decode_response (recv_loop chunks)),
                               "whois: " +:+ server)).
      rewrite classify_return. simpl.
      split; [done|]. split; [lia|]. split; [constructor|].
      exists q, (decode_response (recv_loop chunks)).
      split; [lia|]. split; [done|]. rewrite Nat.add_0_r, Hq. done.
Qed.

(** The two nested loops send what one loop over all variants sends. *)
Lemma for_queries_app domain server qs1 qs2 : forall e w,
  for_queries net domain server (qs1 ++ qs2) e w
  = match for_queries net domain server qs1 e w with
    | (Ret (Exhausted e'), w') => for_queries net domain server qs2 e' w'
    | other => other
    end.
Proof.
  induction qs1 as [|q qs1 IH]; intros e w; [done|].
  cbn [app for_queries]. unfold bind. rewrite attempt_whois_query.
  destruct (net _ _ _); [apply IH|].
  rewrite classify_return. done.
Qed.

Lemma for_queries_total domain server qs e w :
  exists ex w', for_queries net domain server qs e w = (Ret ex, w').
Proof. destruct (for_queries_run domain server qs e w) as (m & ex & H & _). eauto. Qed.

Lemma for_attempts_flat domain server qs n : forall e w,
  for_attempts net n domain server qs e w
  = for_queries net domain server (concat (replicate n qs)) e w.
Proof.
  induction n as [|n IH]; intros e w; [done|].
  cbn [for_attempts replicate concat]. rewrite for_queries_app. unfold bind.
  destruct (for_queries_total domain server qs e w) as (ex & w' & ->).
  destruct ex; [done|]. apply IH.
Qed.

End Loops.

(** ** The server directory *)

Section Directory.

Context (net : nat -> string -> string -> reply).

Lemma later_refl w : later w w.
Proof. split; done. Qed.

Lemma later_trans w1 w2 w3 : later w1 w2 -> later w2 w3 -> later w1 w3.
Proof. intros [? ?] [? ?]. split; etrans; done. Qed.

Lemma later_calls w log : later w (mkWorld (cache w) (calls w ++ log)).
Proof. split; simpl; [done|]. by exists log. Qed.

Lemma zone_last domain z :
  zone domain = Some z ->
  (length (split_dot domain) <? 2)%nat = false
  /\ default "" (last (split_dot domain)) = z.
Proof.
  unfold zone. destruct (_ <? _)%nat; [done|]. intros ->. done.
Qed.

Lemma zone_none domain :
  zone domain = None -> (length (split_dot domain) <? 2)%nat = true.
Proof.
  unfold zone. destruct (_ <? _)%nat eqn:E; [done|].
  destruct (split_dot domain) as [|l ls] eqn:Hs; [done|].
  intros H. by rewrite last_cons in H; destruct (last ls).
Qed.

(** The directory lookup, case by case. *)
Lemma find_whois_server_run domain w :
  find_whois_server net domain w =
    match zone domain with
    | None => (Ret None, w)
    | Some tld =>
        match cache w !! tld with
        | Some server => (Ret (Some server), w)
        | None =>
            let log := calls w ++ trace net (length (calls w)) IANA [tld] in
            match referral (net (length (calls w)) IANA tld) with
            | Some g => (Ret (Some (strip g)), mkWorld (<[tld := strip g]> (cache w)) log)
            | None => (Ret None, mkWorld (cache w) log)
            end
        end
    end.
Proof.
  unfold find_whois_server.
  destruct (zone domain) as [tld|] eqn:Hz.
  - apply zone_last in Hz as [-> ->].
    unfold bind at 1, cache_get at 1.
    destruct (cache w !! tld) as [server|] eqn:Hc; [done|].
    unfold bind at 1. rewrite attempt_whois_query.
    unfold referral, text_of.
    destruct (net _ _ _) as [msg|chunks]; [done|].
    destruct (search_group m_whois _); done.
  - by rewrite (zone_none _ Hz).
Qed.

Lemma find_whois_server_later domain w :
  exists r w', find_whois_server net domain w = (Ret r, w') /\ later w w'.
Proof.
  rewrite find_whois_server_run.
  destruct (zone domain) as [tld|]; [|eauto using later_refl].
  destruct (cache w !! tld) eqn:Hc; [eauto using later_refl|].
  simpl. destruct (referral _).
  - do 2 eexists. split; [done|]. split; simpl.
    + by apply insert_subseteq.
    + by eexists.
  - do 2 eexists. split; [done|]. apply later_calls.
Qed.

End Directory.

(** ** The per-domain checker *)

Section Checker.

Context (net : nat -> string -> string -> reply).
Context (idna_unicode : string -> option string).

(** [check_one], case by case, with the nested loops as one pass over the
    variants. *)
Lemma check_one_run domain retry default_tld w :
  let domain' := with_default_tld default_tld domain in
  let d := to_ascii idna_unicode domain' in
  check_one net idna_unicode domain retry default_tld w =
    if is_empty d || negb (contains "." d)
    then (Ret (domain', "invalid", "Invalid domain name"), w)
    else
      match find_whois_server net d w with
      | (Ret (Some server), w1) =>
          if is_empty server
          then (Ret (domain', "unknown", "WHOIS server not found at IANA"), w1)
          else
            match for_queries net domain' server
                    (variants d (Z.to_nat (retry + 1))) None w1 with
            | (Ret (Returned x), w2) => (Ret x, w2)
            | (Ret (Exhausted e), w2) => (Ret (domain', "error", error_note e), w2)
            | (Raise e, w2) => (Raise e, w2)
            end
      | (Ret None, w1) =>
          (Ret (domain', "unknown", "WHOIS server not found at IANA"), w1)
      | (Raise e, w1) => (Raise e, w1)
      end.
Proof.
  intros domain' d. unfold check_one. fold domain'. fold d.
  destruct (is_empty d || negb (contains "." d)); [done|].
  unfold bind at 1.
  destruct (find_whois_server net d w) as [[[server|]|e] w1]; try done.
  destruct (is_empty server); [done|].
  unfold bind, variants. rewrite for_attempts_flat.
  destruct (for_queries _ _ _ _ _ _) as [[[x|e]|e] w2]; done.
Qed.

Lemma for_queries_later domain server qs e w :
  exists ex w', for_queries net domain server qs e w = (Ret ex, w') /\ later w w'
    /\ match ex with
       | Returned r => exists raw, r = (domain, interpret_whois raw, "whois: " +:+ server)
       | Exhausted _ => True
       end.
Proof.
  destruct (for_queries_run net domain server qs e w) as (m & ex & Hrun & _ & _ & Hex).
  rewrite Hrun. do 2 eexists. split; [done|]. split; [apply later_calls|].
  destruct ex; [|done]. destruct Hex as (q & raw & _ & _ & _ & ->). eauto.
Qed.

(** What every call of [check_one] does: it returns a record, whose first
    component is the name with the default TLD added, and whose status is
    one of the five; an [invalid] verdict involves no network call and no
    cache update. *)
Lemma check_one_shape domain retry default_tld w :
  exists status note w',
    check_one net idna_unicode domain retry default_tld w
      = (Ret (with_default_tld default_tld domain, status, note), w')
    /\ In status ["invalid"; "unknown"; "free"; "registered"; "error"]
    /\ (status = "invalid" -> w' = w)
    /\ later w w'.
Proof.
  rewrite check_one_run.
  destruct (is_empty _ || negb _).
  { do 3 eexists. split; [done|]. simpl. eauto 10 using later_refl. }
  destruct (find_whois_server_later net
              (to_ascii idna_unicode (with_default_tld default_tld domain)) w)
    as (r & w1 & Hfind & Hl1).
  rewrite Hfind.
  destruct r as [server|].
  2:{ do 3 eexists. split; [done|]. simpl. split; [auto|]. split; [done|]. done. }
  destruct (is_empty server).
  { do 3 eexists. split; [done|]. simpl. split; [auto|]. split; [done|]. done. }
  destruct (for_queries_later (with_default_tld default_tld domain) server
              (variants (to_ascii idna_unicode (with_default_tld default_tld domain))
                 (Z.to_nat (retry + 1))) None w1)
    as (ex & w2 & Hloop & Hl2 & Hex).
  rewrite Hloop.
  destruct ex as [r|e].
  - destruct Hex as (raw & ->). do 3 eexists. split; [done|].
    split; [|split; [|by eapply later_trans]].
    + destruct (interpret_whois_range raw) as [ -> | [ -> | -> ] ]; simpl; auto 10.
    + destruct (interpret_whois_range raw) as [ -> | [ -> | -> ] ]; done.
  - do 3 eexists. split; [done|]. simpl. split; [auto 10|].
    split; [done|]. by eapply later_trans.
Qed.

End Checker.

(** C9.  The per-domain check is total: for every input, configuration,
    network behaviour and process state it returns one record and raises
    nothing; the status is one of the five classifications, and an
    [invalid] verdict is reached without any network call. *)
Theorem check_one_total
    (net : nat -> string -> string -> reply) (idna_unicode : string -> option string)
    (domain : string) (retry : Z) (default_tld : string) (w : World) :
  exists (r : record) (w' : World),
    check_one net idna_unicode domain retry default_tld w = (Ret r, w')
    /\ In r.1.2 ["invalid"; "unknown"; "free"; "registered"; "error"]
    /\ (r.1.2 = "invalid" -> w' = w).
Proof.
  destruct (check_one_shape net idna_unicode domain retry default_tld w)
    as (status & note & w' & H & Hin & Hinv & _).
  exists (with_default_tld default_tld domain, status, note), w'. auto.
Qed.

(** C2 (amended).  The first component of the record is the supplied name
    itself when it contains a dot, and otherwise the supplied name followed
    by a dot and the default TLD; the classification and the note are the
    other two components. *)
Theorem check_one_first_component
    (net : nat -> string -> string -> reply) (idna_unicode : string -> option string)
    (domain : string) (retry : Z) (default_tld : string) (w : World) :
  exists (status note : string) (w' : World),
    check_one net idna_unicode domain retry default_tld w
    = (Ret (if contains "." domain then domain else domain +:+ "." +:+ default_tld,
            status, note), w').
Proof.
  destruct (check_one_shape net idna_unicode domain retry default_tld w)
    as (status & note & w' & H & _).
  exists status, note, w'. rewrite H. unfold with_default_tld.
  by destruct (contains "." domain).
Qed.

(** Against C2 as worded: for the name [example] the record carries
    [example.com], not the string that was supplied. *)
Lemma check_one_rewrites_dotless_name :
  exists (r : record) (w' : World),
    check_one net_down no_idna "example" 1 "com" w_fresh = (Ret r, w')
    /\ r.1.1 = "example.com" /\ r.1.1 <> "example".
Proof.
  exists ("example.com", "unknown", "WHOIS server not found at IANA").
  eexists. split; [vm_compute; reflexivity|]. split; [reflexivity|discriminate].
Qed.

(** ** The retry and query-variant strategy *)

Lemma variants_succ d n : variants d (S n) = d :: ("domain " +:+ d) :: variants d n.
Proof. reflexivity. Qed.

Lemma length_variants d n : length (variants d n) = (2 * n)%nat.
Proof. induction n; [done|]. rewrite variants_succ. simpl. lia. Qed.

(** C4.  Once the registry is known, the checker sends the variants in
    order, the bare name and then the [domain ] form, attempt after attempt.
    It stops at the first call that is answered: the answer is classified
    and returned at once, whatever the classification, [unknown] included.
    A further variant or attempt is reached only when every call before it
    raised; when all of them raise the verdict is [error]. *)
Theorem variants_until_first_answer
    (net : nat -> string -> string -> reply) (idna_unicode : string -> option string)
    (domain : string) (retry : Z) (default_tld : string)
    (w w1 : World) (server : string) :
  let domain' := with_default_tld default_tld domain in
  let d := to_ascii idna_unicode domain' in
  let qs := variants d (Z.to_nat (retry + 1)) in
  let n1 := length (calls w1) in
  is_empty d || negb (contains "." d) = false ->
  find_whois_server net d w = (Ret (Some server), w1) ->
  is_empty server = false ->
  exists (m : nat) (r : record),
    check_one net idna_unicode domain retry default_tld w
      = (Ret r, mkWorld (cache w1) (calls w1 ++ trace net n1 server (take m qs)))
    /\ (m <= 2 * Z.to_nat (retry + 1))%nat
    /\ Forall failed (trace net n1 server (take (pred m) qs))
    /\ ((exists q raw,
           (0 < m)%nat /\ qs !! pred m = Some q
           /\ text_of (net (n1 + pred m)%nat server q) = Some raw
           /\ r = (domain', interpret_whois raw, "whois: " +:+ server))
        \/ (m = (2 * Z.to_nat (retry + 1))%nat
            /\ Forall failed (trace net n1 server qs)
            /\ r.1 = (domain', "error"))).
Proof.
  intros domain' d qs n1 Hvalid Hfind Hserver.
  rewrite check_one_run. fold domain' d. rewrite Hvalid, Hfind, Hserver. fold qs.
  destruct (for_queries_run net domain' server qs None w1)
    as (m & ex & Hrun & Hm & Hpre & Hex).
  rewrite Hrun. fold n1 in Hpre, Hex |- *.
  unfold qs in Hm at 1. rewrite length_variants in Hm.
  destruct ex as [r|e].
  - exists m, r. split; [done|]. split; [done|]. split; [done|]. by left.
  - destruct Hex as (Hlen & Hall & _).
    unfold qs in Hlen at 1. rewrite length_variants in Hlen.
    exists m, (domain', "error", error_note e). split; [done|]. split; [done|].
    split; [done|]. by right.
Qed.

Lemma variants_until_first_answer_witness :
  exists (m : nat) (r : record),
    check_one net_flaky no_idna "example" 1 "com" w_fresh
    = (Ret r,
       mkWorld {[ "com" := "whois.nic.example" ]}
         ([mkCall IANA "com" (net_flaky 0 IANA "com")]
          ++ trace net_flaky 1 "whois.nic.example"
               (take m ["example.com"; "domain example.com";
                        "example.com"; "domain example.com"])))
    /\ (m <= 4)%nat.
Proof.
  destruct (variants_until_first_answer net_flaky no_idna "example" 1 "com" w_fresh
              (mkWorld {[ "com" := "whois.nic.example" ]}
                 [mkCall IANA "com" (net_flaky 0 IANA "com")])
              "whois.nic.example")
    as (m & r & Hrun & Hm & _).
  - vm_compute. reflexivity.
  - vm_compute. reflexivity.
  - reflexivity.
  - exists m, r. split; [exact Hrun|exact Hm].
Defined.

(** On that network the second call, the [domain ] form, is the first one
    answered; its text is not recognised and [unknown] is the verdict. *)
Example flaky_registry_run :
  check_one net_flaky no_idna "example" 1 "com" w_fresh
  = (Ret ("example.com", "unknown", "whois: whois.nic.example"),
     mkWorld {[ "com" := "whois.nic.example" ]}
       [ mkCall IANA "com" (net_flaky 0 IANA "com");
         mkCall "whois.nic.example" "example.com"
           (Fail "[Errno 104] Connection reset by peer");
         mkCall "whois.nic.example" "domain example.com"
           (text_reply "Rate limit exceeded, try later.") ]).
Proof. vm_compute. reflexivity. Qed.

(** C5 (amended).  With [retry = 2], when every call to the registry fails,
    the transport is called exactly six times, both variants in each of the
    three attempts, and the verdict is [error]; the note is the message of
    the last failure, verbatim, unless that message is empty, in which case
    it is the fixed fallback text. *)
Theorem retries_exhausted_error
    (net : nat -> string -> string -> reply) (idna_unicode : string -> option string)
    (domain default_tld : string) (w w1 : World) (server : string) :
  let domain' := with_default_tld default_tld domain in
  let d := to_ascii idna_unicode domain' in
  let n1 := length (calls w1) in
  is_empty d || negb (contains "." d) = false ->
  find_whois_server net d w = (Ret (Some server), w1) ->
  is_empty server = false ->
  (forall i q, exists msg, net (n1 + i)%nat server q = Fail msg) ->
  exists msg : string,
    net (n1 + 5)%nat server ("domain " +:+ d) = Fail msg
    /\ check_one net idna_unicode domain 2 default_tld w
       = (Ret (domain', "error", if is_empty msg then FALLBACK_NOTE else msg),
          mkWorld (cache w1)
            (calls w1 ++ trace net n1 server
               [d; "domain " +:+ d; d; "domain " +:+ d; d; "domain " +:+ d])).
Proof.
  intros domain' d n1 Hvalid Hfind Hserver Hfail.
  assert (Hfrom : forall n q, (n1 <= n)%nat -> exists msg, net n server q = Fail msg).
  { intros n q Hn. replace n with (n1 + (n - n1))%nat by lia. apply Hfail. }
  rewrite check_one_run. fold domain' d. rewrite Hvalid, Hfind, Hserver.
  change (Z.to_nat (2 + 1)) with 3%nat.
  destruct (for_queries_run net domain' server (variants d 3) None w1)
    as (m & ex & Hrun & Hm & Hpre & Hex).
  rewrite Hrun. fold n1 in Hpre, Hex |- *.
  destruct ex as [r|e].
  { destruct Hex as (q & raw & _ & _ & Htxt & _).
    destruct (Hfail (pred m) q) as [msg Hmsg]. by rewrite Hmsg in Htxt. }
  destruct Hex as (-> & _ & ->).
  replace (n1 + 5)%nat with (S (S (S (S (S n1))))) by lia.
  destruct (Hfrom (S (S (S (S (S n1))))) ("domain " +:+ d)) as [msg Hmsg]; [lia|].
  exists msg. split; [done|].
  cbn [variants replicate concat app length take trace last_error foldl got].
  rewrite Hmsg.
  destruct (Hfrom n1 d) as [m0 ->]; [lia|].
  destruct (Hfrom (S n1) ("domain " +:+ d)) as [m1 ->]; [lia|].
  destruct (Hfrom (S (S n1)) d) as [m2 ->]; [lia|].
  destruct (Hfrom (S (S (S n1))) ("domain " +:+ d)) as [m3 ->]; [lia|].
  destruct (Hfrom (S (S (S (S n1)))) d) as [m4 ->]; [lia|].
  done.
Qed.

Lemma retries_exhausted_error_witness :
  check_one net_unreachable no_idna "example" 2 "com" w_fresh
  = (Ret ("example.com", "error", "timed out: domain example.com"),
     mkWorld {[ "com" := "whois.nic.example" ]}
       ([mkCall IANA "com" (text_reply "whois: whois.nic.example")]
        ++ trace net_unreachable 1 "whois.nic.example"
             ["example.com"; "domain example.com"; "example.com";
              "domain example.com"; "example.com"; "domain example.com"])).
Proof.
  destruct (retries_exhausted_error net_unreachable no_idna "example" "com" w_fresh
              (mkWorld {[ "com" := "whois.nic.example" ]}
                 [mkCall IANA "com" (text_reply "whois: whois.nic.example")])
              "whois.nic.example")
    as (msg & Hmsg & Hrun).
  - vm_compute. reflexivity.
  - vm_compute. reflexivity.
  - reflexivity.
  - intros i q. eexists. reflexivity.
  - vm_compute in Hmsg. injection Hmsg as <-. exact Hrun.
Defined.

(** Against C5 as worded: when the failures carry an empty message, the
    note is the fallback text and not that message. *)
Lemma empty_error_message_replaced :
  exists w' : World,
    check_one net_silent no_idna "example.com" 2 "com" w_com
    = (Ret ("example.com", "error", FALLBACK_NOTE), w')
    /\ length (calls w') = 6%nat
    /\ last (calls w')
       = Some (mkCall "whois.verisign-grs.com" "domain example.com" (Fail ""))
    /\ FALLBACK_NOTE <> "".
Proof.
  eexists. split; [vm_compute; reflexivity|].
  split; [reflexivity|]. split; [reflexivity|discriminate].
Qed.

(** C10.  When the registry closes the connection without sending anything,
    the text is empty, the classifier answers [unknown], and the checker
    returns [unknown] with the registry in the note after that single call:
    the empty answer is final, neither an error nor retried. *)
Theorem empty_response_is_unknown
    (net : nat -> string -> string -> reply) (idna_unicode : string -> option string)
    (domain : string) (retry : Z) (default_tld : string)
    (w w1 : World) (server : string) :
  let domain' := with_default_tld default_tld domain in
  let d := to_ascii idna_unicode domain' in
  let n1 := length (calls w1) in
  is_empty d || negb (contains "." d) = false ->
  find_whois_server net d w = (Ret (Some server), w1) ->
  is_empty server = false ->
  0 <= retry ->
  text_of (net n1 server d) = Some "" ->
  interpret_whois "" = "unknown"
  /\ check_one net idna_unicode domain retry default_tld w
     = (Ret (domain', "unknown", "whois: " +:+ server),
        mkWorld (cache w1) (calls w1 ++ trace net n1 server [d])).
Proof.
  intros domain' d n1 Hvalid Hfind Hserver Hretry Htxt.
  split; [reflexivity|].
  rewrite check_one_run. fold domain' d. rewrite Hvalid, Hfind, Hserver.
  destruct (Z.to_nat (retry + 1)) as [|n] eqn:Hn; [lia|].
  rewrite variants_succ. cbn [for_queries]. unfold bind.
  rewrite attempt_whois_query. fold n1.
  destruct (net n1 server d) as [msg|chunks]; [done|].
  simpl in Htxt. injection Htxt as ->. reflexivity.
Qed.

Lemma empty_response_is_unknown_witness :
  interpret_whois "" = "unknown"
  /\ check_one net_mute no_idna "example" 1 "com" w_fresh
     = (Ret ("example.com", "unknown", "whois: whois.nic.example"),
        mkWorld {[ "com" := "whois.nic.example" ]}
          [ mkCall IANA "com" (text_reply "whois: whois.nic.example");
            mkCall "whois.nic.example" "example.com" (Recv []) ]).
Proof.
  pose proof (empty_response_is_unknown net_mute no_idna "example" 1 "com" w_fresh
           (mkWorld {[ "com" := "whois.nic.example" ]}
              [mkCall IANA "com" (text_reply "whois: whois.nic.example")])
           "whois.nic.example") as H.
  apply H.
  - vm_compute. reflexivity.
  - vm_compute. reflexivity.
  - reflexivity.
  - lia.
  - reflexivity.
Defined.

(** ** The zone-to-server cache *)

(** Against C3 as worded: a root answer without a referral leaves no
    trace in the cache, and the next name of the zone asks the root again. *)
Lemma failed_lookup_not_cached :
  exists (rs : list record) (w' : World),
    collect net_no_referral no_idna ["a.zz"; "b.zz"] "com" w_fresh = (Ret rs, w')
    /\ length (root_queries "zz" (calls w')) = 2%nat
    /\ cache w' !! "zz" = None.
Proof. do 2 eexists. split; [vm_compute; reflexivity|]. split; reflexivity. Qed.

Lemma contains_app_r p t : forall s,
  contains p s = true -> contains p (t +:+ s) = true.
Proof.
  induction t as [|c t IH]; intros s H; [done|].
  change (startswith p (String c (t +:+ s)) || contains p (t +:+ s) = true).
  rewrite (IH s H). apply orb_true_r.
Qed.

Section Cache.

Context (net : nat -> string -> string -> reply).
Context (idna_unicode : string -> option string).

Lemma root_referrals_app z l1 l2 :
  root_referrals z (l1 ++ l2) = root_referrals z l1 ++ root_referrals z l2.
Proof. unfold root_referrals, root_queries. by rewrite !filter_app. Qed.

Lemma root_referrals_other z c :
  sent c <> z -> root_referrals z [c] = [].
Proof.
  intros H. unfold root_referrals, root_queries.
  rewrite filter_cons_False; [done|]. intros [_ ?]. done.
Qed.

Lemma root_referrals_none z c :
  referral (got c) = None -> root_referrals z [c] = [].
Proof.
  intros H. unfold root_referrals, root_queries.
  rewrite filter_cons. case_decide; [|done].
  rewrite filter_cons_False; [done|]. rewrite H. by intros [? ?].
Qed.

Lemma length_root_referrals_one z c : (length (root_referrals z [c]) <= 1)%nat.
Proof.
  unfold root_referrals, root_queries.
  etrans; [apply length_filter|]. etrans; [apply length_filter|]. done.
Qed.

(** The queries sent to a registry hold a dot, so none of them counts as a
    root query for a zone. *)
Lemma root_referrals_registry z server d n k m :
  contains "." z = false -> contains "." d = true ->
  root_referrals z (trace net n server (take m (variants d k))) = [].
Proof.
  intros Hz Hd. revert n m.
  induction k as [|k IH]; intros n m.
  { by destruct m. }
  assert (Hne : forall q, contains "." q = true -> q <> z) by (intros q Hq ->; congruence).
  rewrite variants_succ.
  destruct m as [|[|m]]; [done| |].
  - apply root_referrals_other; simpl. by apply Hne.
  - cbn [take trace].
    change (?a :: ?b :: ?l) with ([a] ++ [b] ++ l).
    rewrite !root_referrals_app, IH, app_nil_r.
    rewrite !root_referrals_other; [done| |]; simpl; apply Hne; [|done].
    by apply contains_app_r.
Qed.

Lemma find_whois_server_accounts domain w r w' :
  cache_accounts w ->
  find_whois_server net domain w = (Ret r, w') ->
  cache_accounts w'.
Proof.
  intros Hinv. rewrite find_whois_server_run.
  destruct (zone domain) as [tld|]; [|by intros [= _ <-]].
  destruct (cache w !! tld) as [server|] eqn:Hc; [by intros [= _ <-]|].
  simpl. set (c := mkCall IANA tld _).
  destruct (referral _) as [g|] eqn:Hg; intros [= _ <-]; intros z Hz;
    destruct (Hinv z Hz) as [Hle Hnone]; simpl; rewrite root_referrals_app.
  - destruct (decide (tld = z)) as [->|Hne].
    + rewrite (Hnone Hc). simpl. split; [apply length_root_referrals_one|].
      by rewrite lookup_insert_eq.
    + rewrite (root_referrals_other z c), app_nil_r by done.
      split; [done|]. by rewrite lookup_insert_ne.
  - rewrite (root_referrals_none z c), app_nil_r by done. done.
Qed.

Lemma check_one_accounts domain retry default_tld w r w' :
  cache_accounts w ->
  check_one net idna_unicode domain retry default_tld w = (Ret r, w') ->
  cache_accounts w'.
Proof.
  intros Hinv. rewrite check_one_run.
  destruct (is_empty _ || negb _) eqn:Hvalid; [by intros [= _ <-]|].
  apply orb_false_iff in Hvalid as [_ Hdot]. apply negb_false_iff in Hdot.
  destruct (find_whois_server net _ w) as [[[server|]|e] w1] eqn:Hfind; [| |done].
  2:{ intros [= _ <-]. eauto using find_whois_server_accounts. }
  assert (Hinv1 : cache_accounts w1) by eauto using find_whois_server_accounts.
  destruct (is_empty server); [by intros [= _ <-]|].
  destruct (for_queries_run net (with_default_tld default_tld domain) server
              (variants (to_ascii idna_unicode (with_default_tld default_tld domain))
                 (Z.to_nat (retry + 1))) None w1)
    as (m & ex & Hrun & _).
  rewrite Hrun.
  assert (Hinv2 : cache_accounts (mkWorld (cache w1)
            (calls w1 ++ trace net (length (calls w1)) server
               (take m (variants (to_ascii idna_unicode
                                    (with_default_tld default_tld domain))
                          (Z.to_nat (retry + 1))))))).
  { intros z Hz. simpl.
    rewrite root_referrals_app, root_referrals_registry, app_nil_r by done.
    by apply Hinv1. }
  destruct ex; by intros [= _ <-].
Qed.

Lemma collect_total domains default_tld : forall w,
  exists rs w', collect net idna_unicode domains default_tld w = (Ret rs, w')
    /\ length rs = length domains.
Proof.
  induction domains as [|d ds IH]; intros w; [by exists [], w|].
  cbn [collect]. unfold bind at 1.
  destruct (check_one_shape net idna_unicode d 1 default_tld w)
    as (status & note & w1 & Hrun & _).
  rewrite Hrun. unfold bind.
  destruct (IH w1) as (rs & w2 & Hrs & Hlen). rewrite Hrs.
  do 2 eexists. split; [done|]. simpl. by rewrite Hlen.
Qed.

Lemma collect_accounts domains default_tld : forall w rs w',
  cache_accounts w ->
  collect net idna_unicode domains default_tld w = (Ret rs, w') ->
  cache_accounts w'.
Proof.
  induction domains as [|d ds IH]; intros w rs w' Hinv; [by intros [= _ <-]|].
  cbn [collect]. unfold bind at 1.
  destruct (check_one net idna_unicode d 1 default_tld w) as [[r|e] w1] eqn:H1; [|done].
  unfold bind.
  destruct (collect net idna_unicode ds default_tld w1) as [[rs1|e] w2] eqn:H2; [|done].
  intros [= _ <-]. eapply IH; [|done]. by eapply check_one_accounts.
Qed.

End Cache.

(** C3 (amended).  In a run that checks its domains one after the other,
    at most one root-directory query per zone is answered with a referral;
    a zone that got one is in the cache, and from then on every resolution
    for that zone is served from the cache without a transport call.  (A
    lookup that fails records nothing.) *)
Theorem zone_referral_cached
    (net : nat -> string -> string -> reply) (idna_unicode : string -> option string)
    (domains : list string) (default_tld : string) (w : World) (z : string) :
  calls w = [] ->
  contains "." z = false ->
  exists (rs : list record) (w' : World),
    collect net idna_unicode domains default_tld w = (Ret rs, w')
    /\ (length (root_referrals z (calls w')) <= 1)%nat
    /\ (root_referrals z (calls w') <> [] -> is_Some (cache w' !! z))
    /\ (forall domain server w'',
          zone domain = Some z -> cache w' !! z = Some server -> later w' w'' ->
          find_whois_server net domain w'' = (Ret (Some server), w'')).
Proof.
  intros Hlog Hz.
  destruct (collect_total net idna_unicode domains default_tld w) as (rs & w' & Hrun & _).
  exists rs, w'. split; [done|].
  assert (Hinv : cache_accounts w).
  { intros z' _. rewrite Hlog. split; [simpl; lia|done]. }
  pose proof (collect_accounts _ _ _ _ _ _ _ Hinv Hrun z Hz) as [Hle Hnone].
  split; [done|]. split.
  - intros Hne. destruct (cache w' !! z) eqn:Hc; [done|]. by destruct Hne; apply Hnone.
  - intros domain server w'' Hzone Hc [Hsub _].
    rewrite find_whois_server_run, Hzone.
    by rewrite (lookup_weaken _ _ _ _ Hc Hsub).
Qed.

Lemma zone_referral_cached_witness :
  exists (rs : list record) (w' : World),
    collect net_unreachable no_idna ["a.com"; "b.com"; "c.com"] "com" w_fresh
      = (Ret rs, w')
    /\ (length (root_referrals "com" (calls w')) <= 1)%nat
    /\ (root_referrals "com" (calls w') <> [] -> is_Some (cache w' !! "com"))
    /\ (forall domain server w'',
          zone domain = Some "com" -> cache w' !! "com" = Some server -> later w' w'' ->
          find_whois_server net_unreachable domain w'' = (Ret (Some server), w'')).
Proof.
  apply (zone_referral_cached net_unreachable no_idna ["a.com"; "b.com"; "c.com"]
           "com" w_fresh "com").
  - reflexivity.
  - reflexivity.
Defined.

(** On that network the root is asked once for the three names. *)
Example one_root_query_for_three_names :
  exists (rs : list record) (w' : World),
    collect net_unreachable no_idna ["a.com"; "b.com"; "c.com"] "com" w_fresh
      = (Ret rs, w')
    /\ length (root_queries "com" (calls w')) = 1%nat
    /\ length (calls w') = 13%nat.
Proof. do 2 eexists. split; [vm_compute; reflexivity|]. split; reflexivity. Qed.

(** ** Decoding the response *)

Module Utf8Facts.
Import Utf8.

(** Induction along the decoder: a byte or a well-formed sequence is kept,
    or one byte is dropped. *)
Lemma decode_ignore_cases (P : list byte -> list byte -> Prop) :
  P [] [] ->
  (forall b t r, between 0 127 b = true -> P t r -> P (b :: t) (b :: r)) ->
  (forall b1 b2 t r,
      between 0 127 b1 = false -> between 194 223 b1 = true -> cont b2 = true ->
      P t r -> P (b1 :: b2 :: t) (b1 :: b2 :: r)) ->
  (forall b1 b2 b3 t r,
      between 0 127 b1 = false -> between 194 223 b1 = false ->
      between 224 239 b1 = true -> second_of_3 b1 b2 && cont b3 = true ->
      P t r -> P (b1 :: b2 :: b3 :: t) (b1 :: b2 :: b3 :: r)) ->
  (forall b1 b2 b3 b4 t r,
      between 0 127 b1 = false -> between 194 223 b1 = false ->
      between 224 239 b1 = false -> between 240 244 b1 = true ->
      second_of_4 b1 b2 && cont b3 && cont b4 = true ->
      P t r -> P (b1 :: b2 :: b3 :: b4 :: t) (b1 :: b2 :: b3 :: b4 :: r)) ->
  (forall b t r, between 0 127 b = false -> P t r -> P (b :: t) r) ->
  forall bs, P bs (decode_ignore bs).
Proof.
  intros Hnil H1 H2 H3 H4 Hdrop bs.
  remember (length bs) as n eqn:Hn.
  revert bs Hn. induction n as [n IH] using lt_wf_ind. intros bs Hn.
  assert (Hrec : forall t, (length t < n)%nat -> P t (decode_ignore t)).
  { intros t Ht. by eapply IH. }
  destruct bs as [|b1 t1]; [done|]. simpl in Hn.
  cbn [decode_ignore].
  destruct (between 0 127 b1) eqn:E1; [apply H1; [done|apply Hrec; lia]|].
  assert (Hd : P (b1 :: t1) (decode_ignore t1)) by (apply Hdrop; [done|apply Hrec; lia]).
  destruct (between 194 223 b1) eqn:E2.
  { destruct t1 as [|b2 t2]; [done|].
    destruct (cont b2) eqn:E; [|done].
    apply H2; try done. apply Hrec. simpl in *. lia. }
  destruct (between 224 239 b1) eqn:E3.
  { destruct t1 as [|b2 [|b3 t3]]; try done.
    destruct (second_of_3 b1 b2 && cont b3) eqn:E; [|done].
    apply H3; try done. apply Hrec. simpl in *. lia. }
  destruct (between 240 244 b1) eqn:E4; [|done].
  destruct t1 as [|b2 [|b3 [|b4 t4]]]; try done.
  destruct (second_of_4 b1 b2 && cont b3 && cont b4) eqn:E; [|done].
  apply H4; try done. apply Hrec. simpl in *. lia.
Qed.

Lemma decode_ignore_sublist bs : sublist (decode_ignore bs) bs.
Proof.
  apply (decode_ignore_cases (fun bs r => sublist r bs)); intros.
  - constructor.
  - by constructor.
  - by do 2 constructor.
  - by do 3 constructor.
  - by do 4 constructor.
  - by constructor.
Qed.

Lemma between_high lo hi b :
  (128 <= lo)%N -> between lo hi b = true -> between 0 127 b = false.
Proof.
  unfold between. intros Hlo H.
  apply andb_true_iff in H as [H1 _]. apply N.leb_le in H1.
  apply andb_false_iff. right. apply N.leb_gt. lia.
Qed.

Lemma second_of_3_high b1 b2 : second_of_3 b1 b2 = true -> between 0 127 b2 = false.
Proof.
  unfold second_of_3, cont.
  repeat match goal with |- context [if ?c then _ else _] => destruct c end;
    apply between_high; lia.
Qed.

Lemma second_of_4_high b1 b2 : second_of_4 b1 b2 = true -> between 0 127 b2 = false.
Proof.
  unfold second_of_4, cont.
  repeat match goal with |- context [if ?c then _ else _] => destruct c end;
    apply between_high; lia.
Qed.

Lemma cont_high b : cont b = true -> between 0 127 b = false.
Proof. apply between_high. lia. Qed.

Lemma filter_ascii_skip b l :
  between 0 127 b = false ->
  filter (fun x => is_ascii_byte x) (b :: l) = filter (fun x => is_ascii_byte x) l.
Proof.
  intros H. apply filter_cons_False. unfold is_ascii_byte. rewrite H.
  intros Hf. exact Hf.
Qed.

Lemma decode_ignore_keeps_ascii bs :
  filter (fun b => is_ascii_byte b) (decode_ignore bs)
  = filter (fun b => is_ascii_byte b) bs.
Proof.
  apply (decode_ignore_cases
           (fun bs r => filter (fun b => is_ascii_byte b) r
                        = filter (fun b => is_ascii_byte b) bs)).
  - done.
  - intros b t r Hb IH.
    assert (Hk : Is_true (is_ascii_byte b)) by (unfold is_ascii_byte; by rewrite Hb).
    rewrite !filter_cons_True by done. by rewrite IH.
  - intros b1 b2 t r E1 _ E IH.
    rewrite !(filter_ascii_skip b1) by done.
    by rewrite !(filter_ascii_skip b2) by by apply cont_high.
  - intros b1 b2 b3 t r E1 _ _ E IH. apply andb_true_iff in E as [Ea Eb].
    rewrite !(filter_ascii_skip b1) by done.
    rewrite !(filter_ascii_skip b2) by by apply second_of_3_high with b1.
    by rewrite !(filter_ascii_skip b3) by by apply cont_high.
  - intros b1 b2 b3 b4 t r E1 _ _ _ E IH.
    apply andb_true_iff in E as [E Ec]. apply andb_true_iff in E as [Ea Eb].
    rewrite !(filter_ascii_skip b1) by done.
    rewrite !(filter_ascii_skip b2) by by apply second_of_4_high with b1.
    rewrite !(filter_ascii_skip b3) by by apply cont_high.
    by rewrite !(filter_ascii_skip b4) by by apply cont_high.
  - intros b t r Hb IH. by rewrite (filter_ascii_skip b t).
Qed.

(** The decoded text is well formed: decoding it again drops nothing. *)
Lemma decode_ignore_idemp bs : decode_ignore (decode_ignore bs) = decode_ignore bs.
Proof.
  apply (decode_ignore_cases (fun _ r => decode_ignore r = r)).
  - done.
  - intros b t r Hb IH. cbn [decode_ignore]. by rewrite Hb, IH.
  - intros b1 b2 t r E1 E2 E IH. cbn [decode_ignore]. by rewrite E1, E2, E, IH.
  - intros b1 b2 b3 t r E1 E2 E3 E IH. cbn [decode_ignore].
    by rewrite E1, E2, E3, E, IH.
  - intros b1 b2 b3 b4 t r E1 E2 E3 E4 E IH. cbn [decode_ignore].
    by rewrite E1, E2, E3, E4, E, IH.
  - done.
Qed.

End Utf8Facts.

(** Against C7 as worded: the byte FF between [A] and [B] is dropped, and
    no replacement character stands in for it. *)
Lemma undecodable_byte_dropped :
  decode_response (recv_loop [[x41; xff]; [x42]]) = "AB"
  /\ decode_response (recv_loop [[x41; xff]; [x42]])
     <> String.string_of_list_byte ([x41] ++ Utf8.REPLACEMENT ++ [x42]).
Proof. split; [reflexivity|discriminate]. Qed.

(** C7 (amended).  Whatever bytes the peer sends, the transport does not
    raise on them: it returns the concatenation of the chunks read until
    the peer closed, decoded with the undecodable bytes dropped and nothing
    put in their place.  The text is a subsequence of the received bytes,
    it keeps every ASCII byte, and it is well formed. *)
Theorem whois_query_decodes_lossily
    (net : nat -> string -> string -> reply) (server query : string) (w : World)
    (chunks : list (list byte)) :
  net (length (calls w)) server query = Recv chunks ->
  let received := concat (recv_loop chunks) in
  let text := Utf8.decode_ignore received in
  whois_query net server query w
    = (Ret (String.string_of_list_byte text),
       mkWorld (cache w) (calls w ++ [mkCall server query (Recv chunks)]))
  /\ sublist text received
  /\ filter (fun b => Utf8.is_ascii_byte b) text
     = filter (fun b => Utf8.is_ascii_byte b) received
  /\ Utf8.decode_ignore text = text.
Proof.
  intros Hnet received text.
  split; [|split; [|split]].
  - rewrite whois_query_run, Hnet. simpl. by rewrite Hnet.
  - apply Utf8Facts.decode_ignore_sublist.
  - apply Utf8Facts.decode_ignore_keeps_ascii.
  - apply Utf8Facts.decode_ignore_idemp.
Qed.

Lemma whois_query_decodes_lossily_witness :
  whois_query net_garbled "whois.nic.example" "example.com" w_fresh
    = (Ret (String.string_of_list_byte [x41; xd0; xbd; x42]),
       mkWorld ∅ [mkCall "whois.nic.example" "example.com"
                    (Recv [[x41; xff]; [xd0]; [xbd; x42]; []; [x43]])])
  /\ sublist [x41; xd0; xbd; x42] [x41; xff; xd0; xbd; x42].
Proof.
  pose proof (whois_query_decodes_lossily net_garbled "whois.nic.example"
                "example.com" w_fresh [[x41; xff]; [xd0]; [xbd; x42]; []; [x43]]) as H.
  destruct H as (Hrun & Hsub & _); [reflexivity|].
  split; [exact Hrun|exact Hsub].
Defined.

(** ** Normalisation *)

Section Normalisation.

Context (idna_unicode : string -> option string).

Lemma all_chars_app p s t :
  all_chars p (s +:+ t) = all_chars p s && all_chars p t.
Proof. induction s as [|c s IH]; simpl; [done|]. by rewrite IH, andb_assoc. Qed.

Lemma all_chars_lstrip p q s : all_chars p s = true -> all_chars p (lstrip q s) = true.
Proof.
  induction s as [|c s IH]; simpl; [done|]. intros H.
  destruct (q c); [|done]. apply andb_true_iff in H as [_ H]. auto.
Qed.

Lemma all_chars_rstrip p q s : all_chars p s = true -> all_chars p (rstrip q s) = true.
Proof.
  induction s as [|c s IH]; simpl; [done|]. intros H.
  apply andb_true_iff in H as [Hc H].
  destruct (is_empty _ && q c); [done|]. simpl. by rewrite Hc, IH.
Qed.

Lemma lower_char_ascii c : (code c <? 128)%N = true -> (code (lower_char c) <? 128)%N = true.
Proof. destruct c as [[] [] [] [] [] [] [] []]; vm_compute; trivial. Qed.

Lemma is_ascii_lower s : is_ascii s = true -> is_ascii (lower s) = true.
Proof.
  unfold is_ascii. induction s as [|c s IH]; simpl; [done|]. intros H.
  apply andb_true_iff in H as [Hc H]. by rewrite lower_char_ascii, IH.
Qed.

Lemma is_ascii_trimmed s :
  is_ascii s = true -> is_ascii (lower (strip_dots (strip s))) = true.
Proof.
  intros H. apply is_ascii_lower. unfold strip_dots, strip, strip_with, is_ascii.
  by repeat (apply all_chars_rstrip || apply all_chars_lstrip).
Qed.

(** On an ASCII name the codec returns the name or raises: [to_ascii] only
    trims and lowercases. *)
Lemma to_ascii_on_ascii s :
  is_ascii s = true -> to_ascii idna_unicode s = lower (strip_dots (strip s)).
Proof.
  intros H. unfold to_ascii, idna_encode.
  rewrite (is_ascii_trimmed s H).
  destruct (is_empty _); [done|].
  unfold idna_ascii. by destruct (_ && _).
Qed.

End Normalisation.

(** Against C6 as worded: [example.] holds a dot, so no TLD is added; the
    trimming leaves [example], which is invalid, where trimming first would
    have given [example.com]. *)
Lemma trailing_dot_is_invalid :
  check_one net_down no_idna "example." 1 "com" w_fresh
    = (Ret ("example.", "invalid", "Invalid domain name"), w_fresh)
  /\ to_ascii no_idna (with_default_tld "com" "example.") = "example"
  /\ normalize_trim_first "com" "example." = "example.com".
Proof. split; [|split]; vm_compute; reflexivity. Qed.

(** C6 (amended).  The default TLD is added first, to the name as supplied
    and exactly when that name holds no dot; only then are surrounding
    whitespace and the dots at both ends trimmed and the name lowercased,
    and the TLD test is not repeated.  A name left without a dot by the
    trimming, like a name whose only dot is the last character, is reported
    invalid without any network call. *)
Theorem default_tld_added_before_trimming
    (net : nat -> string -> string -> reply) (idna_unicode : string -> option string)
    (domain : string) (retry : Z) (default_tld : string) (w : World) :
  is_ascii domain = true ->
  is_ascii default_tld = true ->
  let named := if contains "." domain then domain else domain +:+ "." +:+ default_tld in
  let d := lower (strip_dots (strip named)) in
  to_ascii idna_unicode (with_default_tld default_tld domain) = d
  /\ (contains "." d = false ->
      check_one net idna_unicode domain retry default_tld w
      = (Ret (named, "invalid", "Invalid domain name"), w)).
Proof.
  intros Hd Ht named d.
  assert (Hnamed : with_default_tld default_tld domain = named).
  { unfold with_default_tld, named. by destruct (contains "." domain). }
  assert (Hascii : is_ascii named = true).
  { unfold named. destruct (contains "." domain); [done|].
    unfold is_ascii in *. rewrite !all_chars_app, Hd, Ht. reflexivity. }
  assert (Hto : to_ascii idna_unicode (with_default_tld default_tld domain) = d).
  { rewrite Hnamed. by apply to_ascii_on_ascii. }
  split; [done|]. intros Hdot.
  rewrite check_one_run, Hto, Hnamed, Hdot. simpl. by rewrite orb_true_r.
Qed.

Lemma default_tld_added_before_trimming_witness :
  to_ascii no_idna (with_default_tld "com" " Example. ") = "example"
  /\ (contains "." "example" = false ->
      check_one net_down no_idna " Example. " 1 "com" w_fresh
      = (Ret (" Example. ", "invalid", "Invalid domain name"), w_fresh)).
Proof.
  pose proof (default_tld_added_before_trimming net_down no_idna " Example. "
                1 "com" w_fresh) as H.
  apply H; reflexivity.
Defined.

(** A name without a dot gets the default TLD once. *)
Example dotless_name_completed :
  to_ascii no_idna (with_default_tld "com" "example") = "example.com".
Proof. reflexivity. Qed.

(** ** The batch runner *)

Section Batch.

Context (net : nat -> string -> string -> reply).
Context (idna_unicode : string -> option string).

Lemma length_insert_by key r l : length (insert_by key r l) = S (length l).
Proof.
  induction l as [|x l IH]; simpl; [done|].
  destruct (key r <=? key x); simpl; [done|]. by rewrite IH.
Qed.

Lemma length_sort_by key l : length (sort_by key l) = length l.
Proof.
  induction l as [|x l IH]; simpl; [done|].
  fold (sort_by key l). by rewrite length_insert_by, IH.
Qed.

(** The batch holds one record per input domain. *)
Lemma main_results_one_record_each completed domains default_tld w :
  completed ≡ₚ domains ->
  exists rs w',
    main_results net idna_unicode completed domains default_tld w = (Ret rs, w')
    /\ length rs = length domains.
Proof.
  intros Hperm. unfold main_results, bind.
  destruct (collect_total net idna_unicode completed default_tld w)
    as (rs & w' & Hrun & Hlen).
  rewrite Hrun. do 2 eexists. split; [done|].
  by rewrite length_sort_by, Hlen, Hperm.
Qed.

End Batch.

(** C1.  For the input ["example"; "a.com"], whatever the network does and
    in whichever order the two checks complete, the batch comes out with
    the record of [a.com] first and the record of [example] last: the sort
    key of a record is looked up by its first component, which for a name
    without a dot is not the input string. *)
Theorem batch_order_lost
    (net : nat -> string -> string -> reply) (idna_unicode : string -> option string)
    (w : World) :
  (exists s1 n1 s2 n2 w',
     main_results net idna_unicode ["example"; "a.com"] ["example"; "a.com"] "com" w
     = (Ret [("a.com", s1, n1); ("example.com", s2, n2)], w'))
  /\ (exists s1 n1 s2 n2 w',
        main_results net idna_unicode ["a.com"; "example"] ["example"; "a.com"] "com" w
        = (Ret [("a.com", s1, n1); ("example.com", s2, n2)], w')).
Proof.
  split.
  - unfold main_results, bind. cbn [collect]. unfold bind.
    destruct (check_one_shape net idna_unicode "example" 1 "com" w)
      as (s2 & n2 & w1 & Hrun1 & _).
    rewrite Hrun1.
    destruct (check_one_shape net idna_unicode "a.com" 1 "com" w1)
      as (s1 & n1 & w2 & Hrun2 & _).
    rewrite Hrun2. exists s1, n1, s2, n2, w2. vm_compute. reflexivity.
  - unfold main_results, bind. cbn [collect]. unfold bind.
    destruct (check_one_shape net idna_unicode "a.com" 1 "com" w)
      as (s1 & n1 & w1 & Hrun1 & _).
    rewrite Hrun1.
    destruct (check_one_shape net idna_unicode "example" 1 "com" w1)
      as (s2 & n2 & w2 & Hrun2 & _).
    rewrite Hrun2. exists s1, n1, s2, n2, w2. vm_compute. reflexivity.
Qed.

(** A name listed twice takes the position of its last occurrence. *)
Example batch_order_lost_duplicate :
  (main_results net_down no_idna ["a.com"; "b.com"; "a.com"]
     ["a.com"; "b.com"; "a.com"] "com" w_fresh).1
  = Ret [ ("b.com", "unknown", "WHOIS server not found at IANA");
          ("a.com", "unknown", "WHOIS server not found at IANA");
          ("a.com", "unknown", "WHOIS server not found at IANA") ].
Proof. vm_compute. reflexivity. Qed.

(** * Further properties of the code *)

(** ** Labels and zones *)

Lemma split_dot_nonempty s : split_dot s <> [].
Proof.
  destruct s as [|c s]; simpl; [done|].
  destruct (is_dot c); [done|]. by destruct (split_dot s).
Qed.

Lemma contains_dot_cons c s :
  contains "." (String c s) = is_dot c || contains "." s.
Proof.
  change (contains "." (String c s)) with (startswith "." (String c s) || contains "." s).
  f_equal. unfold is_dot. simpl.
  destruct (decide ("."%char = c)) as [<-|Hne].
  - by rewrite bool_decide_eq_true_2.
  - by rewrite bool_decide_eq_false_2.
Qed.

Lemma split_dot_dotless s : contains "." s = false -> split_dot s = [s].
Proof.
  induction s as [|c s IH]; [done|].
  rewrite contains_dot_cons. intros H. apply orb_false_iff in H as [Hc Hs].
  simpl. rewrite Hc, (IH Hs). done.
Qed.

Lemma split_dot_app p s :
  split_dot (p +:+ "." +:+ s) = split_dot p ++ split_dot s.
Proof.
  change (p +:+ "." +:+ s) with (p +:+ String "." s).
  induction p as [|c p IH]; [done|].
  change (String c p +:+ String "." s) with (String c (p +:+ String "." s)).
  cbn [split_dot]. rewrite IH.
  destruct (is_dot c); [done|].
  destruct (split_dot p) as [|l ls] eqn:Hp; [by destruct (split_dot_nonempty p)|done].
Qed.

(** A name either is one label, or ends with a dot and its last label. *)
Lemma split_dot_last s :
  exists z, last (split_dot s) = Some z /\ contains "." z = false
    /\ ((length (split_dot s) = 1%nat /\ s = z)
        \/ ((2 <= length (split_dot s))%nat /\ exists p, s = p +:+ "." +:+ z)).
Proof.
  induction s as [|c s (z & Hlast & Hz & IH)].
  { exists "". split; [done|]. split; [done|]. by left. }
  cbn [split_dot]. destruct (is_dot c) eqn:Hc.
  - apply bool_decide_eq_true in Hc as ->.
    exists z. split; [|split; [done|]].
    + destruct (split_dot s) as [|l ls] eqn:Hs; [by destruct (split_dot_nonempty s)|].
      by rewrite last_cons, Hlast.
    + right. split.
      * simpl. pose proof (split_dot_nonempty s).
        destruct (split_dot s); [done|simpl; lia].
      * destruct IH as [[_ ->]|[_ [p ->]]]; [by exists ""|by exists (String "." p)].
  - destruct (split_dot s) as [|l [|l' ls]] eqn:Hs; [by destruct (split_dot_nonempty s)| |].
    + simpl in Hlast. injection Hlast as ->.
      destruct IH as [[_ ->]|[Hlen _]]; [|simpl in Hlen; lia].
      exists (String c z). split; [done|]. split.
      * by rewrite contains_dot_cons, Hc, Hz.
      * by left.
    + exists z. split; [|split; [done|]].
      * exact Hlast.
      * right. split; [simpl; lia|].
        destruct IH as [[Hlen _]|[_ [p ->]]]; [simpl in Hlen; lia|].
        by exists (String c p).
Qed.

Lemma contains_dot_app p s : contains "." (p +:+ "." +:+ s) = true.
Proof.
  change (p +:+ "." +:+ s) with (p +:+ String "." s).
  induction p as [|c p IH]; [done|].
  change (String c p +:+ String "." s) with (String c (p +:+ String "." s)).
  by rewrite contains_dot_cons, IH, orb_true_r.
Qed.

(** X1.  The zone of a name is defined exactly when the name holds a dot,
    and it is then what follows the last dot: a label without a dot. *)
Theorem zone_is_last_label (domain z : string) :
  zone domain = Some z
  <-> contains "." z = false /\ exists p, domain = p +:+ "." +:+ z.
Proof.
  split.
  - intros Hzone. apply zone_last in Hzone as [Hlen Hz].
    destruct (split_dot_last domain) as (z' & Hlast & Hz' & Hcase).
    rewrite Hlast in Hz. simpl in Hz. subst z'. split; [done|].
    destruct Hcase as [[Hone _]|[_ Hp]]; [|done].
    rewrite Hone in Hlen. done.
  - intros [Hz [p ->]]. unfold zone.
    rewrite split_dot_app, (split_dot_dotless z Hz), length_app, last_snoc.
    simpl. replace (_ <? 2)%nat with false; [done|].
    symmetry. apply Nat.ltb_ge.
    pose proof (split_dot_nonempty p). destruct (split_dot p); [done|simpl; lia].
Qed.

Lemma zone_of_dotted d : contains "." d = true -> exists z, zone d = Some z.
Proof.
  intros Hd. destruct (split_dot_last d) as (z & Hlast & Hz & Hcase).
  exists z. destruct Hcase as [[_ ->]|[_ [p ->]]]; [congruence|].
  apply zone_is_last_label. eauto.
Qed.

Lemma zone_of_dotless d : contains "." d = false -> zone d = None.
Proof.
  intros Hd. destruct (zone d) as [z|] eqn:Hz; [|done].
  apply zone_is_last_label in Hz as [_ [p ->]]. by rewrite contains_dot_app in Hd.
Qed.

(** ** More on the per-domain checker *)

Lemma valid_iff_zone d :
  is_empty d || negb (contains "." d) = false <-> is_Some (zone d).
Proof.
  split.
  - intros H. apply orb_false_iff in H as [_ H]. apply negb_false_iff in H.
    destruct (zone_of_dotted d H) as [z ->]. done.
  - intros [z Hz]. apply zone_is_last_label in Hz as [_ [p ->]].
    rewrite contains_dot_app. by destruct p.
Qed.

(** X2.  The verdict is [invalid] exactly when the normalised name has no
    zone, and then nothing else happens: no call, no cache update.  A name
    that passes the test of [check_one] always has a zone, so the directory
    is never asked about a name it would turn down as too short. *)
Theorem invalid_iff_no_zone
    (net : nat -> string -> string -> reply) (idna_unicode : string -> option string)
    (domain : string) (retry : Z) (default_tld : string) (w : World) :
  let domain' := with_default_tld default_tld domain in
  let d := to_ascii idna_unicode domain' in
  exists (r : record) (w' : World),
    check_one net idna_unicode domain retry default_tld w = (Ret r, w')
    /\ (r.1.2 = "invalid" <-> zone d = None)
    /\ (zone d = None -> r = (domain', "invalid", "Invalid domain name") /\ w' = w).
Proof.
  intros domain' d.
  destruct (check_one_shape net idna_unicode domain retry default_tld w)
    as (status & note & w' & Hrun & Hin & Hinv & _).
  exists (domain', status, note), w'. split; [done|].
  rewrite check_one_run in Hrun. fold domain' d in Hrun.
  destruct (is_empty d || negb (contains "." d)) eqn:Hvalid.
  - assert (Hzone : zone d = None).
    { destruct (zone d) eqn:Hz; [|done].
      assert (Hs : is_Some (zone d)) by (by rewrite Hz).
      apply valid_iff_zone in Hs. congruence. }
    injection Hrun as <- <- <-. done.
  - apply valid_iff_zone in Hvalid as [z Hz]. rewrite Hz. simpl.
    split; [|done]. split; [|done]. intros ->.
    rewrite find_whois_server_run, Hz in Hrun.
    destruct (cache w !! z) as [server|].
    + destruct (is_empty server); [done|].
      destruct (for_queries_later net domain' server
                  (variants d (Z.to_nat (retry + 1))) None w)
        as (ex & w2 & Hloop & _ & Hex).
      rewrite Hloop in Hrun. destruct ex as [r|e]; [|done].
      destruct Hex as (raw & ->). injection Hrun as Hst _ _.
      destruct (interpret_whois_range raw) as [H|[H|H]]; rewrite H in Hst; done.
    + simpl in Hrun. destruct (referral _) as [g|]; [|done].
      destruct (is_empty (strip g)); [done|].
      match type of Hrun with context [for_queries ?n ?a ?b ?c ?e ?x] =>
        destruct (for_queries_later n a b c e x) as (ex & w2 & Hloop & _ & Hex) end.
      rewrite Hloop in Hrun. destruct ex as [r|e]; [|done].
      destruct Hex as (raw & ->). injection Hrun as Hst _ _.
      destruct (interpret_whois_range raw) as [H|[H|H]]; rewrite H in Hst; done.
Qed.



(** What one check adds to the state. *)
Lemma check_one_adds
    (net : nat -> string -> string -> reply) (idna_unicode : string -> option string)
    (domain : string) (retry : Z) (default_tld : string) (w : World) :
  exists (r : record) (w' : World),
    check_one net idna_unicode domain retry default_tld w = (Ret r, w')
    /\ cache w ⊆ cache w'
    /\ (exists new, calls w' = calls w ++ new
          /\ (length new <= 1 + 2 * Z.to_nat (retry + 1))%nat).
Proof.
  rewrite check_one_run.
  set (domain' := with_default_tld default_tld domain).
  set (d := to_ascii idna_unicode domain').
  destruct (is_empty d || negb (contains "." d)).
  { do 2 eexists. split; [done|]. split; [done|].
    exists []. rewrite app_nil_r. split; [done|simpl; lia]. }
  assert (Hfind : exists r w1 new1, find_whois_server net d w = (Ret r, w1)
            /\ cache w ⊆ cache w1 /\ calls w1 = calls w ++ new1
            /\ (length new1 <= 1)%nat).
  { rewrite find_whois_server_run. destruct (zone d) as [z|].
    2:{ exists None, w, []. rewrite app_nil_r. simpl. auto. }
    destruct (cache w !! z) eqn:Hc.
    { eexists _, w, []. rewrite app_nil_r. simpl. auto. }
    simpl. destruct (referral _).
    - do 3 eexists. split; [done|]. simpl. split; [by apply insert_subseteq|].
      split; [done|]. simpl. lia.
    - do 3 eexists. split; [done|]. simpl. split; [done|]. split; [done|]. simpl. lia. }
  destruct Hfind as (r & w1 & new1 & Hfind & Hsub & Hcalls & Hlen).
  rewrite Hfind.
  assert (Hstop : forall rec, exists (r0 : record) (w' : World),
            (Ret rec, w1) = (Ret r0, w') /\ cache w ⊆ cache w'
            /\ exists new, calls w' = calls w ++ new
                 /\ (length new <= 1 + 2 * Z.to_nat (retry + 1))%nat).
  { intros rec. exists rec, w1. split; [done|]. split; [done|].
    exists new1. split; [done|lia]. }
  destruct r as [server|]; [|apply Hstop].
  destruct (is_empty server); [apply Hstop|].
  destruct (for_queries_run net domain' server (variants d (Z.to_nat (retry + 1))) None w1)
    as (m & ex & Hrun & Hm & _).
  rewrite Hrun. rewrite length_variants in Hm.
  assert (Hnew : exists new, calls w ++ new
              = calls w1 ++ trace net (length (calls w1)) server
                  (take m (variants d (Z.to_nat (retry + 1))))
            /\ (length new <= 1 + 2 * Z.to_nat (retry + 1))%nat).
  { eexists (new1 ++ _). rewrite Hcalls, <- app_assoc. split; [done|].
    rewrite length_app.
    assert (Hlt : forall n s qs, length (trace net n s qs) = length qs).
    { intros n s qs. revert n. induction qs; intros; simpl; auto. }
    rewrite Hlt, length_take. lia. }
  destruct Hnew as (new & Hnew & Hlen').
  destruct ex; do 2 eexists; (split; [done|]); simpl; (split; [done|]);
    exists new; rewrite <- Hnew; done.
Qed.

(** X4.  A check never forgets: every cache entry it finds is still there
    with the same server afterwards, and the calls already logged stay in
    front of the new ones.  It makes at most one root query and two calls
    per attempt: [1 + 2 * (retry + 1)] transport calls at most. *)
Theorem check_one_call_budget
    (net : nat -> string -> string -> reply) (idna_unicode : string -> option string)
    (domain : string) (retry : Z) (default_tld : string) (w : World) :
  exists (r : record) (w' : World),
    check_one net idna_unicode domain retry default_tld w = (Ret r, w')
    /\ cache w ⊆ cache w'
    /\ (exists new, calls w' = calls w ++ new
          /\ (length new <= 1 + 2 * Z.to_nat (retry + 1))%nat).
Proof. apply check_one_adds. Qed.

(** X21.  A batch of [n] domains, checked with the default [retry = 1],
    makes at most [5 * n] transport calls in all. *)
Theorem batch_call_budget
    (net : nat -> string -> string -> reply) (idna_unicode : string -> option string)
    (domains : list string) (default_tld : string) (w : World) :
  exists (rs : list record) (w' : World),
    collect net idna_unicode domains default_tld w = (Ret rs, w')
    /\ (exists new, calls w' = calls w ++ new
          /\ (length new <= 5 * length domains)%nat).
Proof.
  revert w. induction domains as [|d ds IH]; intros w.
  { exists [], w. split; [done|]. exists []. by rewrite app_nil_r. }
  cbn [collect]. unfold bind at 1.
  destruct (check_one_adds net idna_unicode d 1 default_tld w)
    as (r & w1 & Hrun & _ & new1 & Hcalls1 & Hlen1).
  rewrite Hrun. unfold bind.
  destruct (IH w1) as (rs & w2 & Hrest & new2 & Hcalls2 & Hlen2).
  rewrite Hrest. do 2 eexists. split; [done|].
  exists (new1 ++ new2). rewrite Hcalls2, Hcalls1, <- app_assoc. split; [done|].
  rewrite length_app. change (Z.to_nat (1 + 1)) with 2%nat in Hlen1. simpl. lia.
Qed.

(** X5.  With a negative [retry] the loop body never runs: once the
    registry is known the verdict is [error], with the fallback note, and
    the registry is not contacted at all. *)
Theorem no_attempt_without_retries
    (net : nat -> string -> string -> reply) (idna_unicode : string -> option string)
    (domain : string) (retry : Z) (default_tld : string)
    (w w1 : World) (server : string) :
  let domain' := with_default_tld default_tld domain in
  let d := to_ascii idna_unicode domain' in
  retry < 0 ->
  find_whois_server net d w = (Ret (Some server), w1) ->
  is_empty server = false ->
  check_one net idna_unicode domain retry default_tld w
  = (Ret (domain', "error", FALLBACK_NOTE), w1).
Proof.
  intros domain' d Hretry Hfind Hserver.
  assert (Hvalid : is_empty d || negb (contains "." d) = false).
  { apply valid_iff_zone. rewrite find_whois_server_run in Hfind.
    by destruct (zone d). }
  rewrite check_one_run. fold domain' d. rewrite Hvalid, Hfind, Hserver.
  replace (Z.to_nat (retry + 1)) with 0%nat by lia. done.
Qed.

Lemma no_attempt_without_retries_witness :
  check_one net_down no_idna "example.com" (-1) "com" w_com
  = (Ret ("example.com", "error", FALLBACK_NOTE), w_com).
Proof.
  pose proof (no_attempt_without_retries net_down no_idna "example.com" (-1) "com"
                w_com w_com "whois.verisign-grs.com") as H.
  apply H; [lia|reflexivity|reflexivity].
Defined.

(** X6.  With the zone in the cache the root is not contacted: every call
    the check makes goes to the cached server, and the cache is unchanged. *)
Theorem warm_cache_skips_root
    (net : nat -> string -> string -> reply) (idna_unicode : string -> option string)
    (domain : string) (retry : Z) (default_tld : string)
    (w : World) (z server : string) :
  let d := to_ascii idna_unicode (with_default_tld default_tld domain) in
  zone d = Some z ->
  cache w !! z = Some server ->
  exists (r : record) (new : list call),
    check_one net idna_unicode domain retry default_tld w
      = (Ret r, mkWorld (cache w) (calls w ++ new))
    /\ Forall (fun c => host c = server) new.
Proof.
  intros d Hzone Hhit.
  assert (Hvalid : is_empty d || negb (contains "." d) = false).
  { apply valid_iff_zone. by rewrite Hzone. }
  rewrite check_one_run. fold d. rewrite Hvalid.
  rewrite find_whois_server_run, Hzone, Hhit.
  assert (Hsame : mkWorld (cache w) (calls w ++ []) = w).
  { rewrite app_nil_r. by destruct w. }
  destruct (is_empty server).
  { exists (with_default_tld default_tld domain, "unknown",
            "WHOIS server not found at IANA"), [].
    rewrite Hsame. done. }
  destruct (for_queries_run net (with_default_tld default_tld domain) server
              (variants d (Z.to_nat (retry + 1))) None w)
    as (m & ex & Hrun & _).
  rewrite Hrun.
  assert (Hhost : forall n qs, Forall (fun c => host c = server) (trace net n server qs)).
  { intros n qs. revert n. induction qs; intros; simpl; constructor; auto. }
  destruct ex; do 2 eexists; split; try done; apply Hhost.
Qed.

Lemma warm_cache_skips_root_witness :
  exists (r : record) (new : list call),
    check_one net_down no_idna "example.com" 1 "com" w_com
      = (Ret r, mkWorld (cache w_com) (calls w_com ++ new))
    /\ Forall (fun c => host c = "whois.verisign-grs.com") new.
Proof.
  apply (warm_cache_skips_root net_down no_idna "example.com" 1 "com" w_com "com").
  - reflexivity.
  - reflexivity.
Defined.

(** ** The referral of the root *)








(** ** Letter case in the classifier *)

Lemma lower_char_idemp c : lower_char (lower_char c) = lower_char c.
Proof. destruct c as [[] [] [] [] [] [] [] []]; reflexivity. Qed.

Lemma is_space_lower c : is_space (lower_char c) = is_space c.
Proof. destruct c as [[] [] [] [] [] [] [] []]; reflexivity. Qed.

Lemma lower_char_lf c :
  bool_decide (lower_char c = "010"%char) = bool_decide (c = "010"%char).
Proof. destruct c as [[] [] [] [] [] [] [] []]; reflexivity. Qed.

Lemma lower_idemp s : lower (lower s) = lower s.
Proof. induction s as [|c s IH]; simpl; [done|]. by rewrite lower_char_idemp, IH. Qed.

Lemma ci_literal_lower p : forall s,
  ci_literal p (lower s) = lower <$> ci_literal p s.
Proof.
  induction p as [|a p IH]; intros [|b s]; simpl; try done.
  rewrite lower_char_idemp. destruct (decide _); [apply IH|done].
Qed.

Lemma lstrip_space_lower s :
  lstrip is_space (lower s) = lower (lstrip is_space s).
Proof.
  induction s as [|c s IH]; simpl; [done|].
  rewrite is_space_lower. destruct (is_space c); [apply IH|done].
Qed.

Lemma is_empty_lower s : is_empty (lower s) = is_empty s.
Proof. by destruct s. Qed.

Lemma m_domain_name_lower s : m_domain_name (lower s) = m_domain_name s.
Proof.
  unfold m_domain_name. rewrite ci_literal_lower.
  destruct (ci_literal _ s) as [rest|]; simpl; [|done].
  by rewrite lstrip_space_lower, is_empty_lower.
Qed.

Lemma is_some_ci_literal_lower w s :
  bool_decide (is_Some (ci_literal w (lower s))) = bool_decide (is_Some (ci_literal w s)).
Proof. rewrite ci_literal_lower. by destruct (ci_literal w s). Qed.

Lemma m_status_lower s : m_status (lower s) = m_status s.
Proof.
  unfold m_status. rewrite ci_literal_lower.
  destruct (ci_literal _ s) as [rest|]; cbn [fmap option_fmap option_map existsb]; [|done].
  by rewrite lstrip_space_lower, !is_some_ci_literal_lower.
Qed.

Lemma m_registration_lower s : m_registration (lower s) = m_registration s.
Proof. unfold m_registration. cbn [existsb]. by rewrite !is_some_ci_literal_lower. Qed.

Lemma search_bol_lower m :
  (forall t, m (lower t) = m t) ->
  forall s bol, search_bol m bol (lower s) = search_bol m bol s.
Proof.
  intros Hm. induction s as [|c s IH]; intros bol.
  - done.
  - cbn [lower search_bol]. change (String (lower_char c) (lower s)) with (lower (String c s)).
    by rewrite Hm, lower_char_lf, IH.
Qed.

Lemma search_lower m :
  (forall t, m (lower t) = m t) ->
  forall s, search m (lower s) = search m s.
Proof.
  intros Hm. induction s as [|c s IH].
  - done.
  - cbn [lower search]. change (String (lower_char c) (lower s)) with (lower (String c s)).
    by rewrite Hm, IH.
Qed.

Lemma interpret_whois_lower raw : interpret_whois (lower raw) = interpret_whois raw.
Proof.
  unfold interpret_whois. rewrite lower_idemp.
  rewrite (search_bol_lower _ m_domain_name_lower).
  rewrite (search_bol_lower _ m_status_lower).
  by rewrite (search_lower _ m_registration_lower).
Qed.

(** X8.  The classifier does not look at letter case: two ASCII texts that
    are equal once lowercased get the same classification. *)
Theorem classification_ignores_case (raw1 raw2 : string) :
  is_ascii raw1 = true -> is_ascii raw2 = true ->
  lower raw1 = lower raw2 ->
  interpret_whois raw1 = interpret_whois raw2.
Proof.
  intros _ _ H.
  by rewrite <- (interpret_whois_lower raw1), H, interpret_whois_lower.
Qed.

Lemma classification_ignores_case_witness :
  interpret_whois "DOMAIN NAME: Example.COM" = interpret_whois "domain name: example.com".
Proof.
  apply classification_ignores_case; reflexivity.
Defined.

(** ** The registration rules *)

Lemma ci_literal_startswith w : forall t,
  lower w = w ->
  bool_decide (is_Some (ci_literal w t)) = startswith w (lower t).
Proof.
  induction w as [|a w IH]; intros [|b t] Hw; simpl; try done.
  simpl in Hw. injection Hw as Ha Hw. rewrite Ha.
  destruct (decide (a = lower_char b)) as [Heq|Hne]; [by apply IH|done].
Qed.

Lemma existsb_orb {A} (f g : A -> bool) l :
  existsb (fun x => f x || g x) l = existsb f l || existsb g l.
Proof.
  induction l as [|x l IH]; simpl; [done|]. rewrite IH.
  destruct (f x), (g x), (existsb f l), (existsb g l); done.
Qed.

(** The third pattern is a search for one of three lowercase phrases in
    the lowercased text. *)
Lemma search_registration raw :
  search m_registration raw
  = existsb (fun w => contains w (lower raw))
            ["registrant"; "registry expiry date"; "created:"].
Proof.
  assert (Hm : forall t, m_registration t
             = existsb (fun w => startswith w (lower t))
                 ["registrant"; "registry expiry date"; "created:"]).
  { intros t. unfold m_registration. cbn [existsb].
    by rewrite !ci_literal_startswith. }
  induction raw as [|c raw IH].
  - cbn [search]. rewrite Hm. cbn [existsb lower contains].
    by rewrite !orb_false_r.
  - cbn [search]. rewrite Hm, IH.
    rewrite <- existsb_orb. done.
Qed.

Lemma no_marker_false text :
  (forall marker, In marker AVAILABLE_MARKERS -> contains marker text = false) ->
  existsb (fun marker => contains marker text) AVAILABLE_MARKERS = false.
Proof.
  intros H. destruct (existsb _ _) eqn:E; [|done].
  apply existsb_exists in E as (m & Hin & Hc). by rewrite (H m Hin) in Hc.
Qed.

(** X9.  An ASCII text without availability marker that holds
    [registrant], [registry expiry date] or [created:] anywhere, in any
    letter case, is classified [registered]. *)
Theorem registration_keyword_is_registered (raw keyword : string) :
  is_ascii raw = true ->
  (forall marker, In marker AVAILABLE_MARKERS -> contains marker (lower raw) = false) ->
  In keyword ["registrant"; "registry expiry date"; "created:"] ->
  contains keyword (lower raw) = true ->
  interpret_whois raw = "registered".
Proof.
  intros _ Hfree Hin Hkw. unfold interpret_whois.
  rewrite (no_marker_false _ Hfree).
  destruct (search_bol m_domain_name true raw); [done|].
  destruct (search_bol m_status true raw); [done|].
  rewrite search_registration.
  replace (existsb _ _) with true; [done|].
  symmetry. apply existsb_exists. eauto.
Qed.

Lemma registration_keyword_is_registered_witness :
  interpret_whois "Domain: example.de
Registry Expiry Date: 2030-01-01" = "registered".
Proof.
  apply (registration_keyword_is_registered _ "registry expiry date").
  - reflexivity.
  - intros marker Hin.
    repeat (destruct Hin as [<-|Hin]; [vm_compute; reflexivity|]). destruct Hin.
  - vm_compute. auto.
  - vm_compute. reflexivity.
Defined.

Lemma str_app_assoc (a b c : string) : (a +:+ b) +:+ c = a +:+ (b +:+ c).
Proof.
  induction a as [|x a IH]; [done|].
  change (String x ((a +:+ b) +:+ c) = String x (a +:+ b +:+ c)). by rewrite IH.
Qed.

Lemma str_app_nil_r (a : string) : a +:+ "" = a.
Proof.
  induction a as [|x a IH]; [done|].
  change (String x (a +:+ "") = String x a). by rewrite IH.
Qed.

Lemma ci_literal_app p y : ci_literal p (p +:+ y) = Some y.
Proof. induction p as [|a p IH]; simpl; [done|]. by rewrite decide_True. Qed.

Lemma lstrip_gap gap c rest :
  all_chars is_space gap = true -> is_space c = false ->
  lstrip is_space (gap +:+ String c rest) = String c rest.
Proof.
  intros Hgap Hc. induction gap as [|g gap IH]; simpl in *.
  - by rewrite Hc.
  - apply andb_true_iff in Hgap as [Hg Hgap]. rewrite Hg. auto.
Qed.

Lemma search_bol_line m line b : forall bol,
  m line = true ->
  search_bol m bol (b +:+ String "010" line) = true.
Proof.
  induction b as [|c b IH]; intros bol Hm.
  - change ("" +:+ String "010" line) with (String "010" line).
    cbn [search_bol]. rewrite bool_decide_eq_true_2 by done.
    destruct line; simpl; rewrite Hm; simpl; apply orb_true_r.
  - change (String c b +:+ String "010" line) with (String c (b +:+ String "010" line)).
    cbn [search_bol]. rewrite IH by done. apply orb_true_r.
Qed.

(** X10.  An ASCII text without availability marker is classified
    [registered] when it has a line that starts, in any letter case, with
    [domain name:] followed, after optional whitespace, by a token.  The
    line is the first of the text or comes right after a line feed. *)
Theorem domain_name_line_is_registered (raw before gap rest : string) (c : ascii) :
  is_ascii raw = true ->
  (forall marker, In marker AVAILABLE_MARKERS -> contains marker (lower raw) = false) ->
  before = "" \/ (exists b, before = b +:+ String "010" "") ->
  all_chars is_space gap = true ->
  is_space c = false ->
  lower raw = before +:+ "domain name:" +:+ gap +:+ String c rest ->
  interpret_whois raw = "registered".
Proof.
  intros _ Hfree Hbefore Hgap Hc Hraw.
  rewrite <- interpret_whois_lower. unfold interpret_whois.
  rewrite lower_idemp, (no_marker_false _ Hfree), Hraw.
  replace (search_bol m_domain_name true _) with true; [done|]. symmetry.
  assert (Hline : m_domain_name ("domain name:" +:+ gap +:+ String c rest) = true).
  { unfold m_domain_name. rewrite ci_literal_app, lstrip_gap by done. done. }
  destruct Hbefore as [->|[b ->]].
  - change ("" +:+ ?x) with x. 
    destruct ("domain name:" +:+ gap +:+ String c rest) eqn:E; [done|].
    cbn [search_bol]. by rewrite Hline.
  - rewrite str_app_assoc.
    change (String "010" "" +:+ ?x) with (String "010" x).
    by apply search_bol_line.
Qed.

Lemma domain_name_line_is_registered_witness :
  interpret_whois "% whois.nic.example
Domain Name:   EXAMPLE.COM
Registrar: none" = "registered".
Proof.
  apply (domain_name_line_is_registered _ "% whois.nic.example
" "   " "xample.com
registrar: none" "e"%char).
  - reflexivity.
  - intros marker Hin.
    repeat (destruct Hin as [<-|Hin]; [vm_compute; reflexivity|]). destruct Hin.
  - right. by exists "% whois.nic.example".
  - reflexivity.
  - reflexivity.
  - reflexivity.
Defined.

(** ** The normalised name *)

Lemma is_dot_lower c : is_dot (lower_char c) = is_dot c.
Proof. destruct c as [[] [] [] [] [] [] [] []]; reflexivity. Qed.

Lemma lstrip_lower p s :
  (forall c, p (lower_char c) = p c) ->
  lstrip p (lower s) = lower (lstrip p s).
Proof.
  intros Hp. induction s as [|c s IH]; simpl; [done|].
  rewrite Hp. destruct (p c); [apply IH|done].
Qed.

Lemma rstrip_lower p s :
  (forall c, p (lower_char c) = p c) ->
  rstrip p (lower s) = lower (rstrip p s).
Proof.
  intros Hp. induction s as [|c s IH]; simpl; [done|].
  rewrite IH, is_empty_lower, Hp. by destruct (is_empty _ && p c).
Qed.

Lemma rstrip_idemp p s : rstrip p (rstrip p s) = rstrip p s.
Proof.
  induction s as [|c s IH]; simpl; [done|].
  destruct (is_empty (rstrip p s) && p c) eqn:E; [done|].
  simpl. by rewrite IH, E.
Qed.

Lemma lstrip_rstrip_lstrip p s :
  lstrip p (rstrip p (lstrip p s)) = rstrip p (lstrip p s).
Proof.
  assert (H : lstrip p s = "" \/ exists c t, lstrip p s = String c t /\ p c = false).
  { induction s as [|c s IH]; simpl; [by left|].
    destruct (p c) eqn:Hc; [done|]. right. eauto. }
  destruct H as [->|(c & t & -> & Hc)]; [done|].
  simpl. rewrite Hc, andb_false_r. simpl. by rewrite Hc.
Qed.

Lemma strip_with_idemp p s : strip_with p (strip_with p s) = strip_with p s.
Proof. unfold strip_with. by rewrite lstrip_rstrip_lstrip, rstrip_idemp. Qed.

Lemma rstrip_snoc p s c : p c = true -> rstrip p (s +:+ String c "") = rstrip p s.
Proof.
  intros Hc. induction s as [|x s IH].
  - simpl. by rewrite Hc.
  - change (String x s +:+ String c "") with (String x (s +:+ String c "")).
    cbn [rstrip]. by rewrite IH.
Qed.

Lemma length_rstrip p s : (String.length (rstrip p s) <= String.length s)%nat.
Proof.
  induction s as [|c s IH]; simpl; [done|].
  destruct (is_empty _ && p c); simpl; lia.
Qed.

Lemma length_str_app (a b : string) :
  String.length (a +:+ b) = (String.length a + String.length b)%nat.
Proof.
  induction a as [|x a IH]; [done|].
  change (S (String.length (a +:+ b)) = S (String.length a + String.length b)).
  by rewrite IH.
Qed.

(** A name without a dot at the end does not end with an empty label. *)
Lemma zone_nonempty d z :
  rstrip is_dot d = d -> zone d = Some z -> is_empty z = false.
Proof.
  intros Hfix Hz. apply zone_is_last_label in Hz as [_ [p ->]].
  destruct z; [|done]. exfalso.
  change (p +:+ "." +:+ "") with (p +:+ String "." "") in Hfix.
  rewrite rstrip_snoc in Hfix by done.
  pose proof (length_rstrip is_dot p) as Hlen.
  rewrite Hfix, length_str_app in Hlen. simpl in Hlen. lia.
Qed.

(** X11.  For an ASCII name and an ASCII default TLD the name that is
    checked is ASCII, lowercase and without a dot at either end; when it
    has a zone, that zone, the text sent to the root, is not empty. *)
Theorem normalised_ascii_name
    (idna_unicode : string -> option string) (domain default_tld : string) :
  is_ascii domain = true ->
  is_ascii default_tld = true ->
  let d := to_ascii idna_unicode (with_default_tld default_tld domain) in
  is_ascii d = true
  /\ lower d = d
  /\ strip_dots d = d
  /\ (forall z, zone d = Some z -> is_empty z = false).
Proof.
  intros Hd Ht d.
  assert (Hascii : is_ascii (with_default_tld default_tld domain) = true).
  { unfold with_default_tld. destruct (negb _); [|done].
    unfold is_ascii in *. by rewrite !all_chars_app, Hd, Ht. }
  assert (Hdots : strip_dots d = d).
  { unfold d. rewrite to_ascii_on_ascii by done.
    unfold strip_dots at 1, strip_with.
    rewrite lstrip_lower, rstrip_lower by apply is_dot_lower.
    f_equal. apply (strip_with_idemp is_dot). }
  split; [|split; [|split]].
  - unfold d. rewrite to_ascii_on_ascii by done. by apply is_ascii_trimmed.
  - unfold d. rewrite to_ascii_on_ascii by done. apply lower_idemp.
  - done.
  - intros z. apply zone_nonempty.
    rewrite <- Hdots at 1. unfold strip_dots, strip_with.
    by rewrite rstrip_idemp.
Qed.

Lemma normalised_ascii_name_witness :
  is_ascii "example.com" = true
  /\ lower "example.com" = "example.com"
  /\ strip_dots "example.com" = "example.com"
  /\ (forall z, zone "example.com" = Some z -> is_empty z = false).
Proof.
  pose proof (normalised_ascii_name no_idna " .Example.COM. " "com") as H.
  apply H; reflexivity.
Defined.

(** ** The order of the batch *)

Section BatchOrder.

Context (net : nat -> string -> string -> reply).
Context (idna_unicode : string -> option string).

Lemma insert_by_perm key r l : insert_by key r l ≡ₚ r :: l.
Proof.
  induction l as [|x l IH]; simpl; [done|].
  destruct (key r <=? key x); [done|]. rewrite IH. apply Permutation_swap.
Qed.

Lemma sort_by_perm key l : sort_by key l ≡ₚ l.
Proof.
  induction l as [|x l IH]; simpl; [done|].
  fold (sort_by key l). by rewrite insert_by_perm, IH.
Qed.

Lemma insert_by_sorted key r l :
  StronglySorted (fun a b => key a <= key b) l ->
  StronglySorted (fun a b => key a <= key b) (insert_by key r l).
Proof.
  induction 1 as [|x l Hl IH Hx]; simpl; [repeat constructor|].
  destruct (key r <=? key x) eqn:E.
  - apply Z.leb_le in E. constructor; [by constructor|].
    constructor; [done|]. eapply Forall_impl; [exact Hx|]. simpl. intros; lia.
  - apply Z.leb_gt in E. constructor; [done|].
    rewrite insert_by_perm. constructor; [lia|done].
Qed.

Lemma sort_by_sorted key l :
  StronglySorted (fun a b => key a <= key b) (sort_by key l).
Proof.
  induction l as [|x l IH]; simpl; [constructor|].
  fold (sort_by key l). by apply insert_by_sorted.
Qed.

Lemma order_of_snoc l x : order_of (l ++ [x]) = <[x := length l]> (order_of l).
Proof.
  unfold order_of. rewrite imap_app, foldl_app. simpl.
  by rewrite Nat.add_0_r.
Qed.

(** In a list without repetition every name is mapped to its position. *)
Lemma order_of_lookup l : forall i d,
  NoDup l -> l !! i = Some d -> order_of l !! d = Some i.
Proof.
  induction l as [|x l IH] using rev_ind; intros i d Hnd Hi; [done|].
  rewrite order_of_snoc.
  apply NoDup_app in Hnd as (Hnd & Hx & _).
  destruct (decide (i < length l)%nat) as [Hlt|Hge].
  - rewrite lookup_app_l in Hi by done.
    assert (d <> x).
    { intros ->. apply (Hx x); [by eapply list_elem_of_lookup_2|by left]. }
    rewrite lookup_insert_ne by done. by apply IH.
  - rewrite lookup_app_r in Hi by lia.
    destruct (i - length l)%nat eqn:E; [|by destruct n].
    simpl in Hi. injection Hi as ->.
    rewrite lookup_insert_eq. f_equal. lia.
Qed.

Lemma collect_names completed default_tld : forall w rs w',
  collect net idna_unicode completed default_tld w = (Ret rs, w') ->
  map (fun r : record => r.1.1) rs = map (with_default_tld default_tld) completed.
Proof.
  induction completed as [|d ds IH]; intros w rs w'; [by intros [= <- _]|].
  cbn [collect]. unfold bind at 1.
  destruct (check_one_shape net idna_unicode d 1 default_tld w)
    as (status & note & w1 & Hrun & _).
  rewrite Hrun. unfold bind.
  destruct (collect net idna_unicode ds default_tld w1) as [[rs1|e] w2] eqn:H2; [|done].
  intros [= <- _]. simpl. f_equal. by eapply IH.
Qed.

(** The batch: one record per completed check, sorted by the key. *)
Lemma main_results_sorted completed domains default_tld w :
  completed ≡ₚ domains ->
  exists rs w',
    main_results net idna_unicode completed domains default_tld w = (Ret rs, w')
    /\ map (fun r : record => r.1.1) rs ≡ₚ map (with_default_tld default_tld) domains
    /\ StronglySorted (fun a b => sort_key (order_of domains) a
                                   <= sort_key (order_of domains) b) rs.
Proof.
  intros Hperm. unfold main_results, bind.
  destruct (collect_total net idna_unicode completed default_tld w)
    as (rs & w' & Hrun & _).
  rewrite Hrun. do 2 eexists. split; [done|]. split; [|apply sort_by_sorted].
  rewrite sort_by_perm, (collect_names _ _ _ _ _ Hrun). by rewrite Hperm.
Qed.

End BatchOrder.

(** X12.  Sorting loses nothing: the names in the records of the batch
    are, up to order, the input names, each with the default TLD added
    when it has no dot. *)
Theorem batch_names_are_the_inputs
    (net : nat -> string -> string -> reply) (idna_unicode : string -> option string)
    (completed domains : list string) (default_tld : string) (w : World) :
  completed ≡ₚ domains ->
  exists (rs : list record) (w' : World),
    main_results net idna_unicode completed domains default_tld w = (Ret rs, w')
    /\ map (fun r : record => r.1.1) rs ≡ₚ map (with_default_tld default_tld) domains.
Proof.
  intros Hperm.
  destruct (main_results_sorted net idna_unicode completed domains default_tld w Hperm)
    as (rs & w' & Hrun & Hnames & _).
  eauto.
Qed.

Lemma batch_names_are_the_inputs_witness :
  exists (rs : list record) (w' : World),
    main_results net_down no_idna ["b.org"; "a"] ["a"; "b.org"] "com" w_fresh
      = (Ret rs, w')
    /\ map (fun r : record => r.1.1) rs ≡ₚ ["a.com"; "b.org"].
Proof.
  apply (batch_names_are_the_inputs net_down no_idna ["b.org"; "a"] ["a"; "b.org"]
           "com" w_fresh).
  apply Permutation_swap.
Defined.

(** X13.  When the input names are pairwise different and each of them
    holds a dot, the records come out in input order, in whichever order
    the checks complete. *)
Theorem batch_order_kept
    (net : nat -> string -> string -> reply) (idna_unicode : string -> option string)
    (completed domains : list string) (default_tld : string) (w : World) :
  NoDup domains ->
  Forall (fun d => contains "." d = true) domains ->
  completed ≡ₚ domains ->
  exists (rs : list record) (w' : World),
    main_results net idna_unicode completed domains default_tld w = (Ret rs, w')
    /\ map (fun r : record => r.1.1) rs = domains.
Proof.
  intros Hnd Hdots Hperm.
  destruct (main_results_sorted net idna_unicode completed domains default_tld w Hperm)
    as (rs & w' & Hrun & Hnames & Hsorted).
  exists rs, w'. split; [done|].
  assert (Hid : map (with_default_tld default_tld) domains = domains).
  { clear -Hdots. induction Hdots as [|d ds Hd _ IH]; simpl; [done|].
    unfold with_default_tld at 1. by rewrite Hd, IH. }
  rewrite Hid in Hnames.
  set (idx := fun d : string => default (10 ^ 9) (Z.of_nat <$> order_of domains !! d)).
  assert (Hidx : forall i d, domains !! i = Some d -> idx d = Z.of_nat i).
  { intros i d Hi. unfold idx. by rewrite (order_of_lookup domains i d Hnd Hi). }
  apply (StronglySorted_unique_strong (fun a b => idx a <= idx b)).
  - intros x1 x2 H1 H2 H12 H21.
    rewrite Hnames in H1.
    apply list_elem_of_lookup in H1 as [i1 Hi1].
    apply list_elem_of_lookup in H2 as [i2 Hi2].
    rewrite (Hidx _ _ Hi1), (Hidx _ _ Hi2) in H12, H21.
    assert (i1 = i2) as -> by lia. congruence.
  - apply (StronglySorted_fmap (fun r : record => r.1.1) _
             (fun a b => idx a <= idx b)) in Hsorted; [done|].
    intros a b Hab. exact Hab.
  - clear -Hidx. 
    assert (Hgen : forall pre suf, domains = pre ++ suf ->
              StronglySorted (fun a b => idx a <= idx b) suf).
    { intros pre suf. revert pre. induction suf as [|x suf IH]; intros pre Heq; [constructor|].
      constructor.
      - apply (IH (pre ++ [x])). by rewrite <- app_assoc.
      - apply Forall_forall. intros y Hy.
        apply list_elem_of_lookup in Hy as [j Hj].
        rewrite (Hidx (length pre) x), (Hidx (length pre + S j)%nat y); [lia| |].
        + rewrite Heq, lookup_app_r by lia.
          replace (length pre + S j - length pre)%nat with (S j) by lia. done.
        + rewrite Heq, lookup_app_r by lia.
          by replace (length pre - length pre)%nat with 0%nat by lia. }
    by apply (Hgen []).
  - done.
Qed.

Lemma batch_order_kept_witness :
  exists (rs : list record) (w' : World),
    main_results net_unreachable no_idna ["c.net"; "a.com"; "b.org"]
      ["a.com"; "b.org"; "c.net"] "com" w_fresh = (Ret rs, w')
    /\ map (fun r : record => r.1.1) rs = ["a.com"; "b.org"; "c.net"].
Proof.
  apply (batch_order_kept net_unreachable no_idna ["c.net"; "a.com"; "b.org"]
           ["a.com"; "b.org"; "c.net"] "com" w_fresh).
  - repeat (constructor;
            [rewrite ?not_elem_of_cons; repeat split; (discriminate || apply not_elem_of_nil)|]).
    constructor.
  - repeat constructor.
  - apply (Permutation_cons_append ["a.com"; "b.org"] "c.net").
Defined.

(** ** Chunks of the response *)

Lemma recv_loop_all chunks : Forall (fun data => data <> []) chunks -> recv_loop chunks = chunks.
Proof.
  induction 1 as [|data chunks Hd _ IH]; simpl; [done|].
  destruct data; [done|]. by rewrite IH.
Qed.

(** X14.  How the peer's bytes are cut into chunks does not matter, also
    when a cut falls inside a multi-byte character: the chunks are joined
    before they are decoded, so two sequences of non-empty chunks with the
    same bytes give the same text. *)
Theorem chunking_is_irrelevant (chunks1 chunks2 : list (list byte)) :
  Forall (fun data => data <> []) chunks1 ->
  Forall (fun data => data <> []) chunks2 ->
  concat chunks1 = concat chunks2 ->
  text_of (Recv chunks1) = text_of (Recv chunks2).
Proof.
  intros H1 H2 Heq. unfold text_of, decode_response.
  by rewrite (recv_loop_all _ H1), (recv_loop_all _ H2), Heq.
Qed.

Lemma chunking_is_irrelevant_witness :
  text_of (Recv [[x41; xd0]; [xbd; x42]]) = text_of (Recv [[x41]; [xd0; xbd]; [x42]]).
Proof.
  apply chunking_is_irrelevant.
  - repeat constructor; discriminate.
  - repeat constructor; discriminate.
  - reflexivity.
Defined.

(** ** The domain list *)

Lemma contains_char_cons c x s :
  contains (String c "") (String x s)
  = bool_decide (x = c) || contains (String c "") s.
Proof.
  change (contains (String c "") (String x s))
    with (startswith (String c "") (String x s) || contains (String c "") s).
  f_equal. simpl. destruct (decide (c = x)) as [<-|Hne].
  - by rewrite bool_decide_eq_true_2.
  - by rewrite bool_decide_eq_false_2.
Qed.

Lemma contains_char_all c s :
  contains (String c "") s = negb (all_chars (fun x => negb (bool_decide (x = c))) s).
Proof.
  induction s as [|x s IH]; [done|].
  rewrite contains_char_cons, IH. cbn [all_chars].
  by destruct (bool_decide (x = c)), (all_chars _ s).
Qed.

Lemma split_char_nonempty sep s : split_char sep s <> [].
Proof.
  destruct s as [|c s]; simpl; [done|].
  destruct (decide (c = sep)); [done|]. by destruct (split_char sep s).
Qed.

Lemma split_char_pieces sep s :
  Forall (fun p => all_chars (fun x => negb (bool_decide (x = sep))) p = true)
         (split_char sep s).
Proof.
  induction s as [|c s IH]; simpl; [by repeat constructor|].
  destruct (decide (c = sep)) as [->|Hne]; [by constructor|].
  destruct (split_char sep s) as [|l ls]; [by repeat constructor; simpl;
    rewrite bool_decide_eq_false_2|].
  apply Forall_cons in IH as [Hl Hls]. constructor; [|done].
  simpl. by rewrite bool_decide_eq_false_2, Hl.
Qed.

Lemma splitlines_pieces p s : forall skip,
  all_chars p s = true ->
  Forall (fun l => all_chars p l = true) (splitlines_from skip s).
Proof.
  induction s as [|c s IH]; intros skip Hs; [constructor|].
  simpl in Hs. apply andb_true_iff in Hs as [Hc Hs].
  cbn [splitlines_from]. destruct skip as [|k]; [|by apply IH].
  destruct (break_len (String c s)) as [|k]; [|constructor; [done|by apply IH]].
  specialize (IH 0%nat Hs).
  destruct (splitlines_from 0 s) as [|l ls]; [by repeat constructor; simpl; rewrite Hc|].
  apply Forall_cons in IH as [Hl Hls]. constructor; [|done]. simpl. by rewrite Hc, Hl.
Qed.

Lemma strip_idemp s : strip (strip s) = strip s.
Proof. apply (strip_with_idemp is_space). Qed.

Lemma all_chars_strip p s : all_chars p s = true -> all_chars p (strip s) = true.
Proof.
  intros H. unfold strip, strip_with. by apply all_chars_rstrip, all_chars_lstrip.
Qed.

(** X15.  Every name [load_domains] returns is usable as it is: it is not
    empty, is no comment, has no whitespace left to strip, and holds no
    comma, whether the file was read as comma-separated or line by line. *)
Theorem load_domains_entries (content : string) :
  Forall (fun d => is_empty d = false /\ startswith "#" d = false
                   /\ strip d = d /\ contains "," d = false)
         (load_domains content).
Proof.
  unfold load_domains. apply Forall_forall. intros d Hd.
  apply list_elem_of_In, filter_In in Hd as [Hin Hkeep].
  apply andb_true_iff in Hkeep as [Hne Hc].
  apply negb_true_iff in Hne, Hc. split; [done|]. split; [done|].
  assert (Hpiece : exists piece, d = strip piece
            /\ all_chars (fun x => negb (bool_decide (x = ","%char))) piece = true).
  { destruct (contains "," content) eqn:Hcomma.
    - apply in_map_iff in Hin as (piece & <- & Hin). exists piece. split; [done|].
      pose proof (split_char_pieces ","%char content) as Hall.
      rewrite Forall_forall in Hall. apply Hall. by apply list_elem_of_In.
    - apply in_map_iff in Hin as (piece & <- & Hin). exists piece. split; [done|].
      rewrite contains_char_all in Hcomma. apply negb_false_iff in Hcomma.
      pose proof (splitlines_pieces _ content 0%nat Hcomma) as Hall.
      rewrite Forall_forall in Hall. apply Hall. by apply list_elem_of_In. }
  destruct Hpiece as (piece & -> & Hall). split; [apply strip_idemp|].
  rewrite contains_char_all. apply negb_false_iff. by apply all_chars_strip.
Qed.
















(** ** The command *)

Lemma filter_none {A} (f : A -> bool) l :
  Forall (fun x => f x = false) l -> List.filter f l = [].
Proof. induction 1 as [|x l Hx _ IH]; simpl; [done|]. by rewrite Hx. Qed.

(** X18.  A file in which every piece (every line, or every item between
    commas when there is a comma) is blank or a comment holds no domain:
    [main] reports it on the error stream and exits with status 1, before
    any network call. *)
Theorem main_exits_without_domains
    (net : nat -> string -> string -> reply) (idna_unicode : string -> option string)
    (content : string) (out tld : option string) (completed : list string) (w : World) :
  Forall (fun piece => is_empty (strip piece) = true
                       \/ startswith "#" (strip piece) = true)
         (if contains "," content then split_char ","%char content
          else splitlines content) ->
  load_domains content = []
  /\ main net idna_unicode content out tld completed w
     = (Ret (Exit1 "File is empty or contains no valid domains."), w).
Proof.
  intros Hblank.
  assert (Hnone : load_domains content = []).
  { unfold load_domains. apply filter_none.
    assert (Hpieces : forall pieces,
              Forall (fun piece => is_empty (strip piece) = true
                                   \/ startswith "#" (strip piece) = true) pieces ->
              Forall (fun d => negb (is_empty d) && negb (startswith "#" d) = false)
                     (map strip pieces)).
    { induction 1 as [|piece pieces [H|H] _ IH]; cbn [map]; constructor; try done.
      - by rewrite H.
      - rewrite H. apply andb_false_r. }
    destruct (contains "," content); by apply Hpieces. }
  split; [done|]. unfold main. by rewrite Hnone.
Qed.

Lemma main_exits_without_domains_witness :
  load_domains "# my domains

   
#example.com" = []
  /\ main net_down no_idna "# my domains

   
#example.com" (Some "out.csv") None [] w_fresh
     = (Ret (Exit1 "File is empty or contains no valid domains."), w_fresh).
Proof.
  apply main_exits_without_domains.
  match goal with
  | |- Forall _ ?l =>
      let l' := eval vm_compute in l in
      replace l with l' by (vm_compute; reflexivity)
  end.
  repeat (apply Forall_cons; split;
          [first [left; vm_compute; reflexivity | right; vm_compute; reflexivity]|]).
  apply Forall_nil. exact I.
Defined.



Lemma py_len_app a b : py_len (a +:+ b) = (py_len a + py_len b)%nat.
Proof.
  induction a as [|c a IH]; [done|].
  change (String c a +:+ b) with (String c (a +:+ b)).
  cbn [py_len]. rewrite IH. lia.
Qed.

Lemma py_len_spaces n : py_len (spaces n) = n.
Proof. induction n as [|n IH]; [done|]. cbn [spaces py_len]. by rewrite IH. Qed.

Lemma py_len_ljust n s : (py_len s <= n)%nat -> py_len (ljust n s) = n.
Proof. intros H. unfold ljust. rewrite py_len_app, py_len_spaces. lia. Qed.

(** X20.  The table stays aligned: for a record of [check_one] whose name
    has at most 40 characters, the note starts at column 56 of its row,
    under the heading [NOTE], whatever the status. *)
Theorem report_line_aligned
    (net : nat -> string -> string -> reply) (idna_unicode : string -> option string)
    (domain : string) (retry : Z) (default_tld : string) (w w' : World) (r : record) :
  check_one net idna_unicode domain retry default_tld w = (Ret r, w') ->
  (py_len r.1.1 <= 40)%nat ->
  (exists prefix, report_line r = prefix +:+ r.2 /\ py_len prefix = 56%nat)
  /\ (exists prefix, HEADER_LINE = prefix +:+ "NOTE" /\ py_len prefix = 56%nat).
Proof.
  intros Hrun Hname. split.
  - destruct (check_one_shape net idna_unicode domain retry default_tld w)
      as (status & note & w1 & Hrun' & Hin & _).
    rewrite Hrun' in Hrun. injection Hrun as <- _. simpl in Hname |- *.
    exists (ljust 40 (with_default_tld default_tld domain) +:+ "  "
            +:+ ljust 12 status +:+ "  ").
    split.
    + unfold report_line. cbn [fst snd]. by rewrite !str_app_assoc.
    + assert (Hst : (py_len status <= 12)%nat).
      { repeat (destruct Hin as [<-|Hin]; [vm_compute; lia|]). destruct Hin. }
      rewrite !py_len_app, !py_len_ljust by done. reflexivity.
  - exists (ljust 40 "DOMAIN" +:+ "  " +:+ ljust 12 "STATUS" +:+ "  ").
    split; reflexivity.
Qed.

Lemma report_line_aligned_witness :
  (exists prefix,
      report_line ("example.com", "unknown", "WHOIS server not found at IANA")
      = prefix +:+ "WHOIS server not found at IANA" /\ py_len prefix = 56%nat)
  /\ (exists prefix, HEADER_LINE = prefix +:+ "NOTE" /\ py_len prefix = 56%nat).
Proof.
  pose proof (report_line_aligned net_down no_idna "example" 1 "com" w_fresh
                (mkWorld ∅ [mkCall IANA "com" (Fail "timed out")])
                ("example.com", "unknown", "WHOIS server not found at IANA")) as H.
  apply H; [reflexivity|vm_compute; lia].
Defined.
